(** * Shallow embedding of ffmpeg-gui (src/main.rs)

    Rust [String]s that may hold arbitrary Unicode (file names) are modelled
    as lists of Unicode scalar values ([list Z]); strings that only ever hold
    the encoder's ASCII diagnostics or argument words are Rocq [string]s
    (UTF-8 byte sequences).  *)

From Stdlib Require Import ZArith QArith Qround List String Ascii Bool Lia DecimalString.
Import ListNotations.
Open Scope Z_scope.

(* ------------------------------------------------------------------ *)
(** ** Filename sanitizer ([sanitize_filename], main.rs 643-664) *)
Module Sanitize.

(** A Rust [String] as its sequence of [char]s (code points). *)
Definition ustring := list Z.

Definition dot : Z := 46.   (* '.' *)

(** Membership in the regex class
    [[A-Za-z0-9_\.\/\u{4e00}-\u{9fff}]]. *)
Definition allowed (c : Z) : bool :=
  ((65 <=? c) && (c <=? 90)) || ((97 <=? c) && (c <=? 122))
  || ((48 <=? c) && (c <=? 57)) || (c =? 95) || (c =? 46) || (c =? 47)
  || ((19968 <=? c) && (c <=? 40959)).

(** [re.replace_all(filename, "")] for the negated class [[^...]+]:
    every maximal run of disallowed characters is removed. *)
Definition regex_strip (s : ustring) : ustring := filter allowed s.

(** [str::rsplit_once('.')]: split at the last dot. *)
Fixpoint rsplit_once (sep : Z) (s : ustring) : option (ustring * ustring) :=
  match s with
  | [] => None
  | c :: rest =>
      match rsplit_once sep rest with
      | Some (l, r) => Some (c :: l, r)
      | None => if c =? sep then Some ([], rest) else None
      end
  end.

Definition sanitize_filename (filename : ustring) : ustring :=
  let reg_filename := regex_strip filename in
  let '(stem, extension) :=
    match rsplit_once dot reg_filename with
    | Some p => p
    | None => (reg_filename, [])
    end in
  (* [.filter(|&c| c != '.' || c == '.')] keeps every character;
     [.replace(".", "")] then drops all dots. *)
  let sanitized_stem :=
    filter (fun c => negb (c =? dot)) (filter (fun c => negb (c =? dot) || (c =? dot)) stem) in
  match extension with
  | [] => sanitized_stem
  | _ => sanitized_stem ++ [dot] ++ extension
  end.

Definition count_dots (s : ustring) : nat := count_occ Z.eq_dec s dot.

End Sanitize.

(* ------------------------------------------------------------------ *)
(** ** Rust [&str] operations on ASCII text *)
Module Str.
Local Open Scope string_scope.

(** [s.strip_prefix(pat)]. *)
Fixpoint strip_prefix (pat s : string) : option string :=
  match pat with
  | EmptyString => Some s
  | String c p =>
      match s with
      | EmptyString => None
      | String d s' => if Ascii.eqb c d then strip_prefix p s' else None
      end
  end.

(** Split at the first occurrence of [pat] ([str::split_once]). *)
Fixpoint split_once (pat s : string) : option (string * string) :=
  match strip_prefix pat s with
  | Some rest => Some (EmptyString, rest)
  | None =>
      match s with
      | EmptyString => None
      | String c r =>
          match split_once pat r with
          | Some (a, b) => Some (String c a, b)
          | None => None
          end
      end
  end.

(** [s.contains(pat)]. *)
Definition contains (pat s : string) : bool :=
  match split_once pat s with Some _ => true | None => false end.

(** [s.split(pat).collect()] for a non-empty pattern: each step consumes at
    least one character, so [length s + 1] rounds suffice. *)
Fixpoint split_fuel (fuel : nat) (pat s : string) : list string :=
  match fuel with
  | O => [s]
  | S f =>
      match split_once pat s with
      | None => [s]
      | Some (a, b) => a :: split_fuel f pat b
      end
  end.

Definition split (pat s : string) : list string := split_fuel (S (length s)) pat s.

End Str.

(* ------------------------------------------------------------------ *)
(** ** [f32] as used by the progress parser

    The parser only needs [str::parse::<f32>] and the three operations
    [+], [*], [/] with literal constants.  They are kept abstract here, so
    every structural fact below holds for IEEE [f32] as well; a concrete
    instance on exact rationals is given for evaluation. *)
Class Float32Like (F : Type) := {
  f_parse : string -> option F;
  f_add : F -> F -> F;
  f_mul : F -> F -> F;
  f_div : F -> F -> F;
  f_lit : Z -> F
}.

(* ------------------------------------------------------------------ *)
(** ** Progress parser ([parse_ffmpeg_progress], main.rs 814-838) *)
Module Progress.
Local Open Scope string_scope.

Section Parser.
Context {F : Type} `{Float32Like F}.

Definition parse_ffmpeg_progress (line : string) : option F :=
  if Str.contains "time=" line then
    match nth_error (Str.split "time=" line) 1 with
    | None => None
    | Some seg =>
      match Str.split " " seg with
      | [] => None
      | time_str :: _ =>
        match Str.split ":" time_str with
        | [p0; p1; p2] =>
            (* HH:MM:SS.ms *)
            match f_parse p0, f_parse p1, f_parse p2 with
            | Some hours, Some minutes, Some seconds =>
                Some (f_div (f_add (f_add (f_mul hours (f_lit 3600)) (f_mul minutes (f_lit 60)))
                                   seconds) (f_lit 100))
            | _, _, _ => None
            end
        | [p0; p1] =>
            (* MM:SS.ms *)
            match f_parse p0, f_parse p1 with
            | Some minutes, Some seconds =>
                Some (f_div (f_add (f_mul minutes (f_lit 60)) seconds) (f_lit 100))
            | _, _ => None
            end
        | _ => None
        end
      end
    end
  else None.

End Parser.
End Progress.

(* ------------------------------------------------------------------ *)
(** ** A rational instance of [Float32Like]

    [q_parse] accepts the finite decimal forms of Rust's [f32] grammar:
    an optional sign, digits with an optional fractional part (at least one
    digit in all), and an optional exponent.  Results are exact rationals
    (no rounding to 24 bits); the non-finite spellings [inf]/[nan], which
    Rust also accepts, have no rational value and are not produced. *)
Module QFloat.

Definition digit_val (c : ascii) : option Z :=
  let n := Z.of_nat (nat_of_ascii c) in
  if (48 <=? n) && (n <=? 57) then Some (n - 48) else None.

(** Longest run of leading digits, its value and its length. *)
Fixpoint take_digits (s : string) : Z * nat * string :=
  match s with
  | EmptyString => (0, 0%nat, s)
  | String c r =>
      match digit_val c with
      | None => (0, 0%nat, s)
      | Some d =>
          let '(v, k, rest) := take_digits r in
          (d * 10 ^ Z.of_nat k + v, S k, rest)
      end
  end.

Definition take_sign (s : string) : Z * string :=
  match s with
  | String "-"%char r => (-1, r)
  | String "+"%char r => (1, r)
  | _ => (1, s)
  end.

Definition pow10 (e : Z) : Q :=
  if 0 <=? e then inject_Z (10 ^ e) else (/ inject_Z (10 ^ (- e)))%Q.

Definition q_parse (s : string) : option Q :=
  let '(sg, s1) := take_sign s in
  let '(iv, ik, s2) := take_digits s1 in
  let '(fv, fk, s3) :=
    match s2 with
    | String "."%char r => take_digits r
    | _ => (0, 0%nat, s2)
    end in
  if ((ik + fk)%nat =? 0)%nat then None else
  let mant : Q := (inject_Z (sg * (iv * 10 ^ Z.of_nat fk + fv)) / inject_Z (10 ^ Z.of_nat fk))%Q in
  match s3 with
  | EmptyString => Some mant
  | String c r =>
      if (Ascii.eqb c "e"%char || Ascii.eqb c "E"%char) then
        let '(esg, r1) := take_sign r in
        let '(ev, ek, r2) := take_digits r1 in
        match ek, r2 with
        | S _, EmptyString => Some (mant * pow10 (esg * ev))%Q
        | _, _ => None
        end
      else None
  end.

#[export] Instance Q_Float32Like : Float32Like Q := {
  f_parse := q_parse;
  f_add := Qplus;
  f_mul := Qmult;
  f_div := Qdiv;
  f_lit := inject_Z
}.

End QFloat.

(* ------------------------------------------------------------------ *)
(** ** [compare_times] (main.rs 734-739) over chrono's [NaiveTime]

    [NaiveTime::from_str] as in chrono 0.4: hour, minute and second are
    one or two digits each (taken greedily), separated by [:], followed by
    an optional fraction [.ddd]; hour <= 23, minute <= 59, second <= 60,
    a second of 60 being a leap second (fraction + 10^9).  The optional
    whitespace chrono skips around the separators is not modelled.  A
    [NaiveTime] is its pair (seconds of day, fraction in ns), ordered
    lexicographically as chrono's derived [Ord] does. *)
Module Time.

Definition naive_time := (Z * Z)%type.

(** [scan::number(s, 1, 2)]. *)
Definition take_num2 (s : string) : option (Z * string) :=
  match s with
  | String c1 r1 =>
      match QFloat.digit_val c1 with
      | None => None
      | Some d1 =>
          match r1 with
          | String c2 r2 =>
              match QFloat.digit_val c2 with
              | Some d2 => Some (10 * d1 + d2, r2)
              | None => Some (d1, r1)
              end
          | EmptyString => Some (d1, r1)
          end
      end
  | EmptyString => None
  end.

(** [str::trim_start] on UTF-8 bytes: drop leading code points with the
    Unicode White_Space property ([char::is_whitespace]): the ASCII ones
    (9-13, 32), U+0085, U+00A0, U+1680, U+2000-U+200A, U+2028, U+2029,
    U+202F, U+205F and U+3000. *)
Fixpoint trim_start (s : string) : string :=
  match s with
  | EmptyString => EmptyString
  | String c r =>
      let b := nat_of_ascii c in
      if (Nat.leb 9 b && Nat.leb b 13) || Nat.eqb b 32 then trim_start r
      else if Nat.eqb b 194 then
        match r with
        | String d r1 =>
            let b1 := nat_of_ascii d in
            if Nat.eqb b1 133 || Nat.eqb b1 160 then trim_start r1 else s
        | EmptyString => s
        end
      else if Nat.eqb b 225 || Nat.eqb b 226 || Nat.eqb b 227 then
        match r with
        | String d (String e r2) =>
            let b1 := nat_of_ascii d in
            let b2 := nat_of_ascii e in
            if (Nat.eqb b 225 && Nat.eqb b1 154 && Nat.eqb b2 128) ||
               (Nat.eqb b 226 && Nat.eqb b1 128 &&
                ((Nat.leb 128 b2 && Nat.leb b2 138) || Nat.eqb b2 168 || Nat.eqb b2 169 ||
                 Nat.eqb b2 175)) ||
               (Nat.eqb b 226 && Nat.eqb b1 129 && Nat.eqb b2 159) ||
               (Nat.eqb b 227 && Nat.eqb b1 128 && Nat.eqb b2 128)
            then trim_start r2 else s
        | _ => s
        end
      else s
  end.

(** [Item::Numeric(_, Pad::Zero)] of width 2 ([Hour], [Minute],
    [Second]): leading whitespace is skipped, then [scan::number(s, 1, 2)]. *)
Definition numeric2 (s : string) : option (Z * string) := take_num2 (trim_start s).

(** [Item::Space("")] followed by [Item::Literal(":")]. *)
Definition space_colon (s : string) : option string :=
  match trim_start s with
  | String ":"%char r => Some r
  | _ => None
  end.

(** [Item::Fixed(Fixed::Nanosecond)]: if the input starts with [.],
    [scan::nanosecond]: one to nine digits, scaled to nanoseconds, then
    any further digits skipped; otherwise nothing is consumed and the
    nanosecond stays unset (0). *)
Definition nanosecond (s : string) : option (Z * string) :=
  match s with
  | String "."%char r =>
      let '(v, k, rest) := QFloat.take_digits r in
      match k with
      | O => None
      | _ =>
          let k := Z.of_nat k in
          Some (if k <=? 9 then v * 10 ^ (9 - k) else v / 10 ^ (k - 9), rest)
      end
  | _ => Some (0, s)
  end.

(** The optional [SECOND] items [Space(""), Literal(":"), Second,
    Fixed(Nanosecond)], with [Parsed::set_second]'s range 0..=60. *)
Definition second_part (s : string) : option (Z * Z * string) :=
  match space_colon s with
  | Some r1 =>
      match numeric2 r1 with
      | Some (sec, r2) =>
          if sec <=? 60 then
            match nanosecond r2 with
            | Some (nano, r3) => Some (sec, nano, r3)
            | None => None
            end
          else None
      | None => None
      end
  | None => None
  end.

(** [Parsed::to_naive_time]: a second of 60 is a leap second, kept as
    59 seconds and one extra second of nanoseconds. *)
Definition to_naive_time (h m sec nano : Z) : naive_time :=
  (h * 3600 + m * 60 + Z.min sec 59, if sec =? 60 then 1000000000 + nano else nano).

(** [NaiveTime::from_str] (chrono 0.4): the items [Hour, Space(""),
    Literal(":"), Minute] with [set_hour] (0..=23) and [set_minute]
    (0..=59); then the [SECOND] items, which are optional: when they fail,
    parsing goes on from where they started; then [Space("")] and the end
    of input. *)
Definition naive_time_from_str (s : string) : option naive_time :=
  match numeric2 s with
  | Some (h, r1) =>
      if h <=? 23 then
        match space_colon r1 with
        | Some r2 =>
            match numeric2 r2 with
            | Some (m, r3) =>
                if m <=? 59 then
                  let '(sec, nano, r4) :=
                    match second_part r3 with
                    | Some x => x
                    | None => (0, 0, r3)
                    end in
                  match trim_start r4 with
                  | EmptyString => Some (to_naive_time h m sec nano)
                  | _ => None
                  end
                else None
            | None => None
            end
        | None => None
        end
      else None
  | None => None
  end.

Definition naive_time_cmp (a b : naive_time) : comparison :=
  match Z.compare (fst a) (fst b) with
  | Eq => Z.compare (snd a) (snd b)
  | c => c
  end.

(** [None] is the panic of [.unwrap()] on a parse error. *)
Definition compare_times (time1 time2 : string) : option comparison :=
  match naive_time_from_str time1 with
  | None => None
  | Some t1 =>
      match naive_time_from_str time2 with
      | None => None
      | Some t2 => Some (naive_time_cmp t1 t2)
      end
  end.

(** A zero-padded two-digit field, and [HH:MM:SS]. *)
Definition digit (d : Z) : ascii := ascii_of_nat (48 + Z.to_nat d).
Definition two_digits (n : Z) : string :=
  String (digit (n / 10)) (String (digit (n mod 10)) EmptyString).
Definition hms (h m s : Z) : string :=
  (two_digits h ++ ":" ++ two_digits m ++ ":" ++ two_digits s)%string.

(** A field of a time as a user types it: two digits, or a single digit
    for a value below 10 (as in ["0:00:10"]). *)
Definition time_field (n : Z) (f : string) : Prop :=
  f = two_digits n \/ (0 <= n <= 9 /\ f = String (digit n) EmptyString).

End Time.

(* ------------------------------------------------------------------ *)
(** ** Process Runner ([process_task], main.rs 741-812) *)
Module Runner.
Import Time QFloat.
Local Open Scope string_scope.

Record BatchTask := {
  input_path : string;
  output_path : string;
  start_time : string;
  end_time : string;
  rotation : Z
}.

Definition Z_to_string (z : Z) : string := NilEmpty.string_of_int (Z.to_int z).

(** The arguments given to [Command::new("ffmpeg")], in order; [None] when
    [compare_times] panics. *)
Definition ffmpeg_args (task : BatchTask) : option (list string) :=
  match compare_times task.(start_time) task.(end_time) with
  | None => None
  | Some ord =>
      let clip :=
        match ord with
        | Lt => ["-ss"; task.(start_time); "-to"; task.(end_time);
                 "-c:v"; "copy"; "-c:a"; "copy"; task.(output_path)]
        | _ => []
        end in
      let rot :=
        if negb (task.(rotation) =? 0)%Z then
          ["-metadata:s:v"; "rotate=" ++ Z_to_string task.(rotation);
           "-codec"; "copy"; task.(output_path)]
        else [] in
      Some (["-i"; task.(input_path)] ++ clip ++ rot)%list
  end.

(** What the operating system and the encoder do with one invocation. *)
Inductive SpawnResult :=
| SpawnFailed (e : string)                                (* [cmd.spawn()] failed *)
| WaitFailed (stderr : list string) (e : string)          (* [child.wait()] failed *)
| Exited (stderr : list string) (code : option Z).        (* exit code, [None] on a signal *)

Record Env := {
  create_dir_all : string -> option string;   (* [Some e]: the error text *)
  spawn : list string -> SpawnResult
}.

(** [Path::parent]: the part before the last [/] ([""] when there is
    none); [None] for the empty path. *)
Definition path_parent (p : string) : option string :=
  match p with
  | EmptyString => None
  | _ =>
      let fix go (s : string) : option string :=
        match s with
        | EmptyString => None
        | String c r =>
            match go r with
            | Some pre => Some (String c pre)
            | None => if Ascii.eqb c "/"%char then Some EmptyString else None
            end
        end in
      match go p with Some pre => Some pre | None => Some EmptyString end
  end.

Inductive TaskOutcome :=
| TOk
| TErr (e : string)
| TPanic.

(** [Option<i32>]'s [Debug] text. *)
Definition show_code (c : option Z) : string :=
  match c with Some z => "Some(" ++ Z_to_string z ++ ")" | None => "None" end.

(** The values the stderr reader thread stores into [state.progress]. *)
Definition progress_updates (lines : list string) : list Q :=
  flat_map (fun l => match Progress.parse_ffmpeg_progress l with
                     | Some p => [p] | None => [] end) lines.

(** [ExitStatus::success]. *)
Definition success (code : option Z) : bool :=
  match code with Some z => (z =? 0)%Z | None => false end.

Definition run_ffmpeg (env : Env) (task : BatchTask) : TaskOutcome * list Q :=
  match ffmpeg_args task with
  | None => (TPanic, [])
  | Some args =>
      match env.(spawn) args with
      | SpawnFailed e => (TErr ("启动FFmpeg失败: " ++ e), [])
      | WaitFailed lines e => (TErr ("等待FFmpeg进程失败: " ++ e), progress_updates lines)
      | Exited lines code =>
          (if success code then TOk
           else TErr ("FFmpeg处理失败，退出码: " ++ show_code code),
           progress_updates lines)
      end
  end.

(** The outcome of [process_task] and the progress values its stderr
    reader thread will store, in order.  The reader is never joined: its
    stores may happen before or after [process_task] returns. *)
Definition process_task (env : Env) (task : BatchTask) : TaskOutcome * list Q :=
  match path_parent task.(output_path) with
  | Some parent =>
      match env.(create_dir_all) parent with
      | Some e => (TErr ("创建目录失败: " ++ e), [])
      | None => run_ffmpeg env task
      end
  | None => run_ffmpeg env task
  end.

End Runner.

(* ------------------------------------------------------------------ *)
(** ** Batch Controller (the worker spawned in [process_control],
    main.rs 586-607)

    The shared cells [processing_flag], [state.message] and
    [state.progress] are one record; the worker thread is a program
    counter.  [progress_writes] and [invoked] log every write to
    [state.progress] and every call of [process_task], in order.
    [process_task] spawns a stderr reader thread (main.rs 791-800) that it
    never joins: [readers] holds, for each call of [process_task] so far,
    the values its reader has still to store into [state.progress] (an
    empty list when ffmpeg never started).  The UI thread's stop button
    and each reader's store are further kinds of step, so any interleaving
    of the threads is a list of events. *)
Module Batch.
Import QFloat Runner.
Local Open Scope string_scope.

Record Shared := {
  processing_flag : bool;
  message : string;
  progress : Q;
  progress_writes : list Q;
  invoked : list BatchTask;
  readers : list (list Q)
}.

Definition set_flag (b : bool) (s : Shared) : Shared :=
  {| processing_flag := b; message := s.(message); progress := s.(progress);
     progress_writes := s.(progress_writes); invoked := s.(invoked);
     readers := s.(readers) |}.

Definition set_message (m : string) (s : Shared) : Shared :=
  {| processing_flag := s.(processing_flag); message := m; progress := s.(progress);
     progress_writes := s.(progress_writes); invoked := s.(invoked);
     readers := s.(readers) |}.

Definition write_progress (p : Q) (s : Shared) : Shared :=
  {| processing_flag := s.(processing_flag); message := s.(message); progress := p;
     progress_writes := s.(progress_writes) ++ [p]; invoked := s.(invoked);
     readers := s.(readers) |}.

Definition log_invocation (t : BatchTask) (s : Shared) : Shared :=
  {| processing_flag := s.(processing_flag); message := s.(message); progress := s.(progress);
     progress_writes := s.(progress_writes); invoked := s.(invoked) ++ [t];
     readers := s.(readers) |}.

(** The reader thread of a [process_task] call, with the values it will
    store, in order. *)
Definition spawn_reader (ws : list Q) (s : Shared) : Shared :=
  {| processing_flag := s.(processing_flag); message := s.(message); progress := s.(progress);
     progress_writes := s.(progress_writes); invoked := s.(invoked);
     readers := s.(readers) ++ [ws] |}.

(** Replace the [i]-th element; nothing changes out of range. *)
Fixpoint update_nth {A} (i : nat) (x : A) (l : list A) : list A :=
  match l, i with
  | [], _ => []
  | _ :: r, O => x :: r
  | y :: r, S j => y :: update_nth j x r
  end.

(** One store [*state_progress.lock().unwrap() = progress] of the [i]-th
    reader thread; a finished (or absent) reader does nothing. *)
Definition reader_step (i : nat) (s : Shared) : Shared :=
  match nth_error s.(readers) i with
  | Some (p :: ws) =>
      {| processing_flag := s.(processing_flag); message := s.(message); progress := p;
         progress_writes := s.(progress_writes) ++ [p]; invoked := s.(invoked);
         readers := update_nth i ws s.(readers) |}
  | _ => s
  end.

(** Where the worker thread is. *)
Inductive Phase :=
| Spawned (tasks : list BatchTask)   (* thread created with the snapshot *)
| Loop (rest : list BatchTask)       (* top of the [for] loop *)
| Finish                             (* after the loop *)
| Done                               (* thread returned *)
| Crashed.                           (* thread died on a panic *)

(** One step of the worker thread. *)
Definition worker_step (env : Env) (ph : Phase) (s : Shared) : Phase * Shared :=
  match ph with
  | Spawned tasks => (Loop tasks, set_flag true s)
  | Loop [] => (Finish, s)
  | Loop (task :: rest) =>
      let s1 := log_invocation task (set_message ("处理中: " ++ task.(input_path)) s) in
      let '(out, writes) := process_task env task in
      let s2 := spawn_reader writes s1 in
      match out with
      | TOk => (Loop rest, s2)
      | TErr e => (Finish, set_message ("错误: " ++ e) s2)
      | TPanic => (Crashed, s2)
      end
  | Finish =>
      (Done, set_flag false (write_progress 0%Q (set_message "处理完成" s)))
  | Done => (Done, s)
  | Crashed => (Crashed, s)
  end.

(** The stop button: [*self.processing.lock().unwrap() = false]. *)
Definition stop_request (s : Shared) : Shared := set_flag false s.

Inductive Event :=
| WorkerStep
| StopRequest
| ReaderStep (i : nat).

Fixpoint run (env : Env) (evs : list Event) (ph : Phase) (s : Shared) : Phase * Shared :=
  match evs with
  | [] => (ph, s)
  | WorkerStep :: evs' => let '(ph', s') := worker_step env ph s in run env evs' ph' s'
  | StopRequest :: evs' => run env evs' ph (stop_request s)
  | ReaderStep i :: evs' => run env evs' ph (reader_step i s)
  end.

(** A run of the worker alone, long enough to reach its end. *)
Definition run_worker (env : Env) (tasks : list BatchTask) (s : Shared) : Phase * Shared :=
  run env (repeat WorkerStep (List.length tasks + 3)) (Spawned tasks) s.

(** [ProcessingState::default()] and the flag's initial [false]. *)
Definition initial_shared : Shared :=
  {| processing_flag := false; message := ""; progress := 0%Q;
     progress_writes := []; invoked := []; readers := [] |}.

(** What the threads' behaviour consists of: the worker's phase and every
    shared cell except the processing flag. *)
Definition view (r : Phase * Shared) :=
  (fst r, (snd r).(message), (snd r).(progress), (snd r).(progress_writes), (snd r).(invoked),
   (snd r).(readers)).

(** Two shared states that differ at most in the processing flag. *)
Definition same_but_flag (s1 s2 : Shared) : Prop :=
  s1.(message) = s2.(message) /\ s1.(progress) = s2.(progress) /\
  s1.(progress_writes) = s2.(progress_writes) /\ s1.(invoked) = s2.(invoked) /\
  s1.(readers) = s2.(readers).

Definition not_stop (e : Event) : bool :=
  match e with StopRequest => false | _ => true end.

(** Whether the worker has returned. *)
Definition is_done (ph : Phase) : bool :=
  match ph with Done => true | _ => false end.

(** A value the progress parser can produce. *)
Definition parsed_value (q : Q) : Prop :=
  exists line, Progress.parse_ffmpeg_progress line = Some q.

End Batch.

(* ------------------------------------------------------------------ *)
(** ** Concrete scenarios *)
Module Scenario.
Import Runner.
Local Open Scope string_scope.

Definition task_named (n : string) : BatchTask :=
  {| input_path := n ++ ".mp4"; output_path := "output/" ++ n ++ "_out.mp4";
     start_time := "0:00:01"; end_time := "0:00:05"; rotation := 0 |}.

Definition three_tasks : list BatchTask := [task_named "a"; task_named "b"; task_named "c"].

(** An encoder that reports five minutes of output and exits 0, except on
    [b.mp4] where it exits with code 1. *)
Definition second_fails_env : Env := {|
  create_dir_all := fun _ => None;
  spawn := fun args =>
    if existsb (String.eqb "b.mp4") args
    then Exited ["b.mp4: Invalid data found when processing input"] (Some 1%Z)
    else Exited ["frame=10 time=00:05:00.00 bitrate=1.0kbits/s"] (Some 0%Z)
|}.

(** The same encoder succeeding on every input. *)
Definition all_ok_env : Env := {|
  create_dir_all := fun _ => None;
  spawn := fun _ => Exited ["frame=10 time=00:05:00.00 bitrate=1.0kbits/s"] (Some 0%Z)
|}.

(** The task of the spec's clip-range example: end before start. *)
Definition reversed_range_task : BatchTask :=
  {| input_path := "movie.mp4"; output_path := "output/movie_processed_0.mp4";
     start_time := "0:00:10"; end_time := "0:00:05"; rotation := 0 |}.

End Scenario.

(* ------------------------------------------------------------------ *)
(** ** Preview Service ([generate_preview], main.rs 241-315, and the
    frame drain at the end of [preview_panel], main.rs 415-439)

    The preview fields of [VideoProcessor] form one record.  The preview
    worker thread is a pending job that writes its target's shared frame
    slot when it completes (or when the next accepted request joins it).
    What [ffmpeg] extracts and what [load_image] decodes come from the
    environment.  UI frame time ([ctx.input(|i| i.time)], an [f64] of
    seconds) is a rational. *)
Module Preview.
Local Open Scope string_scope.

Definition Bytes := list Z.

Record PreviewEnv := {
  (* [ffmpeg -ss <time> -i <input> ... -y preview_temp.jpg] followed by
     [fs::read(temp_path).ok()]: [None] when no frame was written *)
  extract_frame : string -> string -> Z -> option Bytes;
  (* [load_image]: [None] when the bytes do not decode *)
  load_image : Bytes -> option Bytes
}.

(** The spawned preview thread: its target ([true] for the start time),
    the bytes it will store, and whether it has stored them. *)
Record PreviewJob := {
  job_is_start : bool;
  job_result : option Bytes;
  job_finished : bool
}.

Record VP := {
  source_paths : list string;
  rotation : Z;
  start_preview_time : string;
  end_preview_time : string;
  start_preview_loading : bool;
  end_preview_loading : bool;
  start_preview_texture : option Bytes;
  end_preview_texture : option Bytes;
  current_start_preview_frame : option Bytes;
  current_end_preview_frame : option Bytes;
  last_preview_request_time : Q;
  preview_thread : option PreviewJob;
  spawned : list (bool * string)      (* log: every worker spawned *)
}.

Definition qlt (a b : Q) : bool := match (a ?= b)%Q with Lt => true | _ => false end.

(** The worker's final write: [*frame = img_data]. *)
Definition store_frame (is_start : bool) (data : option Bytes) (vp : VP) : VP :=
  if is_start then
    {| source_paths := vp.(source_paths); rotation := vp.(rotation);
       start_preview_time := vp.(start_preview_time); end_preview_time := vp.(end_preview_time);
       start_preview_loading := vp.(start_preview_loading); end_preview_loading := vp.(end_preview_loading);
       start_preview_texture := vp.(start_preview_texture); end_preview_texture := vp.(end_preview_texture);
       current_start_preview_frame := data; current_end_preview_frame := vp.(current_end_preview_frame);
       last_preview_request_time := vp.(last_preview_request_time);
       preview_thread := vp.(preview_thread); spawned := vp.(spawned) |}
  else
    {| source_paths := vp.(source_paths); rotation := vp.(rotation);
       start_preview_time := vp.(start_preview_time); end_preview_time := vp.(end_preview_time);
       start_preview_loading := vp.(start_preview_loading); end_preview_loading := vp.(end_preview_loading);
       start_preview_texture := vp.(start_preview_texture); end_preview_texture := vp.(end_preview_texture);
       current_start_preview_frame := vp.(current_start_preview_frame); current_end_preview_frame := data;
       last_preview_request_time := vp.(last_preview_request_time);
       preview_thread := vp.(preview_thread); spawned := vp.(spawned) |}.

Definition set_thread (t : option PreviewJob) (vp : VP) : VP :=
  {| source_paths := vp.(source_paths); rotation := vp.(rotation);
     start_preview_time := vp.(start_preview_time); end_preview_time := vp.(end_preview_time);
     start_preview_loading := vp.(start_preview_loading); end_preview_loading := vp.(end_preview_loading);
     start_preview_texture := vp.(start_preview_texture); end_preview_texture := vp.(end_preview_texture);
     current_start_preview_frame := vp.(current_start_preview_frame);
     current_end_preview_frame := vp.(current_end_preview_frame);
     last_preview_request_time := vp.(last_preview_request_time);
     preview_thread := t; spawned := vp.(spawned) |}.

(** The preview thread runs to its end. *)
Definition worker_finish (vp : VP) : VP :=
  match vp.(preview_thread) with
  | Some j =>
      if j.(job_finished) then vp
      else set_thread (Some {| job_is_start := j.(job_is_start); job_result := j.(job_result);
                               job_finished := true |})
             (store_frame j.(job_is_start) j.(job_result) vp)
  | None => vp
  end.

(** [self.preview_thread.take()] followed by [thread.join()]. *)
Definition join_preview_thread (vp : VP) : VP := set_thread None (worker_finish vp).

Definition generate_preview (env : PreviewEnv) (now : Q) (is_start : bool) (vp : VP) : VP :=
  if (match vp.(source_paths) with [] => true | _ => false end)
     || (is_start && vp.(start_preview_loading))
     || (negb is_start && vp.(end_preview_loading))
  then vp
  else if qlt (now - vp.(last_preview_request_time)) (1 # 2) then vp
  else
    let vp1 := {| source_paths := vp.(source_paths); rotation := vp.(rotation);
                  start_preview_time := vp.(start_preview_time); end_preview_time := vp.(end_preview_time);
                  start_preview_loading := vp.(start_preview_loading);
                  end_preview_loading := vp.(end_preview_loading);
                  start_preview_texture := vp.(start_preview_texture);
                  end_preview_texture := vp.(end_preview_texture);
                  current_start_preview_frame := vp.(current_start_preview_frame);
                  current_end_preview_frame := vp.(current_end_preview_frame);
                  last_preview_request_time := now;
                  preview_thread := vp.(preview_thread); spawned := vp.(spawned) |} in
    let vp2 := join_preview_thread vp1 in
    (* [self.source_paths[0]]: non-empty by the first guard *)
    let input_path := match vp2.(source_paths) with p :: _ => p | [] => "" end in
    let time := if is_start then vp2.(start_preview_time) else vp2.(end_preview_time) in
    let job := {| job_is_start := is_start;
                  job_result := env.(extract_frame) input_path time vp2.(rotation);
                  job_finished := false |} in
    {| source_paths := vp2.(source_paths); rotation := vp2.(rotation);
       start_preview_time := vp2.(start_preview_time); end_preview_time := vp2.(end_preview_time);
       start_preview_loading := if is_start then true else vp2.(start_preview_loading);
       end_preview_loading := if is_start then vp2.(end_preview_loading) else true;
       start_preview_texture := vp2.(start_preview_texture);
       end_preview_texture := vp2.(end_preview_texture);
       current_start_preview_frame := vp2.(current_start_preview_frame);
       current_end_preview_frame := vp2.(current_end_preview_frame);
       last_preview_request_time := vp2.(last_preview_request_time);
       preview_thread := Some job; spawned := vp2.(spawned) ++ [(is_start, time)] |}.

(** The per-frame drain at the end of [preview_panel]: [frame.take()] and,
    only when a frame was there, the texture update and
    [loading = false]. *)
Definition drain_start (env : PreviewEnv) (vp : VP) : VP :=
  match vp.(current_start_preview_frame) with
  | None => vp
  | Some img_data =>
      {| source_paths := vp.(source_paths); rotation := vp.(rotation);
         start_preview_time := vp.(start_preview_time); end_preview_time := vp.(end_preview_time);
         start_preview_loading := false; end_preview_loading := vp.(end_preview_loading);
         start_preview_texture :=
           match env.(load_image) img_data with
           | Some image => Some image
           | None => vp.(start_preview_texture)
           end;
         end_preview_texture := vp.(end_preview_texture);
         current_start_preview_frame := None;
         current_end_preview_frame := vp.(current_end_preview_frame);
         last_preview_request_time := vp.(last_preview_request_time);
         preview_thread := vp.(preview_thread); spawned := vp.(spawned) |}
  end.

Definition drain_end (env : PreviewEnv) (vp : VP) : VP :=
  match vp.(current_end_preview_frame) with
  | None => vp
  | Some img_data =>
      {| source_paths := vp.(source_paths); rotation := vp.(rotation);
         start_preview_time := vp.(start_preview_time); end_preview_time := vp.(end_preview_time);
         start_preview_loading := vp.(start_preview_loading); end_preview_loading := false;
         start_preview_texture := vp.(start_preview_texture);
         end_preview_texture :=
           match env.(load_image) img_data with
           | Some image => Some image
           | None => vp.(end_preview_texture)
           end;
         current_start_preview_frame := vp.(current_start_preview_frame);
         current_end_preview_frame := None;
         last_preview_request_time := vp.(last_preview_request_time);
         preview_thread := vp.(preview_thread); spawned := vp.(spawned) |}
  end.

Definition preview_drain (env : PreviewEnv) (vp : VP) : VP := drain_end env (drain_start env vp).

(** The fields of one target. *)
Definition target_loading (is_start : bool) (vp : VP) : bool :=
  if is_start then vp.(start_preview_loading) else vp.(end_preview_loading).
Definition target_texture (is_start : bool) (vp : VP) : option Bytes :=
  if is_start then vp.(start_preview_texture) else vp.(end_preview_texture).
Definition target_frame (is_start : bool) (vp : VP) : option Bytes :=
  if is_start then vp.(current_start_preview_frame) else vp.(current_end_preview_frame).
Definition target_time (is_start : bool) (vp : VP) : string :=
  if is_start then vp.(start_preview_time) else vp.(end_preview_time).
Definition first_source (vp : VP) : string :=
  match vp.(source_paths) with p :: _ => p | [] => "" end.

(** The three guards of [generate_preview], as one test. *)
Definition preview_accepts (vp : VP) (now : Q) (is_start : bool) : bool :=
  negb (match vp.(source_paths) with [] => true | _ => false end)
  && negb (if is_start then vp.(start_preview_loading) else vp.(end_preview_loading))
  && negb (qlt (now - vp.(last_preview_request_time)) (1 # 2)).

End Preview.

(* ------------------------------------------------------------------ *)
(** ** Preview scenarios *)
Module PreviewScenario.
Import Preview.
Local Open Scope string_scope.

(** One source selected, nothing loading, the application just started. *)
Definition fresh_vp : VP := {|
  source_paths := ["movie.mp4"]; rotation := 0;
  start_preview_time := "0:00:10"; end_preview_time := "9:00:00";
  start_preview_loading := false; end_preview_loading := false;
  start_preview_texture := None; end_preview_texture := None;
  current_start_preview_frame := None; current_end_preview_frame := None;
  last_preview_request_time := 0; preview_thread := None; spawned := []
|}.

(** An encoder that writes a frame for times within the first hour and no
    file beyond the end of the video. *)
Definition short_video_env : PreviewEnv := {|
  extract_frame := fun _ time _ =>
    match time with String "0"%char _ => Some [255; 216; 255] | _ => None end;
  load_image := fun b => Some b
|}.

End PreviewScenario.

(* ------------------------------------------------------------------ *)
(** ** [format_duration] (main.rs 229-237)

    The [f64] argument is a rational; [NaN] and the infinities, which are
    not, are out of the model. *)
Module Duration.
Local Open Scope string_scope.

Definition u64_max : Z := (2 ^ 64 - 1)%Z.

(** [x as u64]: truncation toward zero, saturating at [0] and
    [u64::MAX]; for a positive [x] truncation is the floor. *)
Definition f64_as_u64 (x : Q) : Z :=
  if Qle_bool x 0 then 0%Z else Z.min (Qfloor x) u64_max.

(** [format!("{:02}", n)] for an unsigned [n]: its decimal digits,
    zero-padded to width 2. *)
Definition pad2 (n : Z) : string :=
  let d := Runner.Z_to_string n in
  if (String.length d <? 2)%nat then "0" ++ d else d.

Definition format_duration (seconds : Q) : string :=
  let total := f64_as_u64 seconds in
  let hours := (total / 3600)%Z in
  let remaining := (total mod 3600)%Z in
  let minutes := (remaining / 60)%Z in
  let seconds := (remaining mod 60)%Z in
  pad2 hours ++ ":" ++ pad2 minutes ++ ":" ++ pad2 seconds.

End Duration.

(* ------------------------------------------------------------------ *)
(** ** [rename_file], [generate_output_path] and [prepare_batch_tasks]
    (main.rs 619-639, 667-732)

    Paths are Unix paths over the code points of their strings, with the
    [std::path] operations the code calls: [components] (on which [Path]
    equality is defined), [file_name], [file_stem] / [extension],
    [PathBuf::push] (behind [Path::join]) and [with_file_name].  The file
    system answers each [fs::rename]; the renames it performs are not fed
    back into later answers.  [Local::now()], formatted three ways, is a
    [Clock]. *)
Module OutputPath.
Import Sanitize.

Definition slash : Z := 47.   (* '/' *)

(** The pieces of a path between its separators. *)
Fixpoint split_sep (s : ustring) : list ustring :=
  match s with
  | [] => [[]]
  | c :: r =>
      let ps := split_sep r in
      if c =? slash then [] :: ps
      else match ps with
           | p :: ps' => (c :: p) :: ps'
           | [] => [[c]]
           end
  end.

Fixpoint join_sep (ps : list ustring) : ustring :=
  match ps with
  | [] => []
  | [p] => p
  | p :: ps' => p ++ slash :: join_sep ps'
  end.

Definition dotdot : ustring := [dot; dot].

(** A piece that yields no component inside the body: empty or [.]. *)
Definition is_cur (p : ustring) : bool :=
  match p with [] => true | [c] => c =? dot | _ => false end.

Inductive Component := RootDir | CurDir | ParentDir | Normal (s : ustring).

Definition component_eq_dec (a b : Component) : {a = b} + {a <> b}.
Proof. decide equality. apply (list_eq_dec Z.eq_dec). Defined.

Definition body_component (p : ustring) : list Component :=
  if is_cur p then []
  else if list_eq_dec Z.eq_dec p dotdot then [ParentDir] else [Normal p].

(** [Path::components]: a leading [/] is the root, a leading [.] piece of
    a relative path is [CurDir], and inside the body empty and [.] pieces
    are skipped. *)
Definition components (p : ustring) : list Component :=
  match p, split_sep p with
  | c :: _, q :: body =>
      if c =? slash then RootDir :: flat_map body_component body
      else if list_eq_dec Z.eq_dec q [dot] then CurDir :: flat_map body_component body
      else flat_map body_component (q :: body)
  | _, _ => []
  end.

(** [Path]'s [PartialEq]. *)
Definition path_eqb (p q : ustring) : bool :=
  if list_eq_dec component_eq_dec (components p) (components q) then true else false.

(** [Path::file_name]: the last component when it is [Normal]. *)
Definition path_file_name (p : ustring) : option ustring :=
  match last (components p) RootDir with Normal s => Some s | _ => None end.

(** [file_stem] and [extension] of a file name ([rsplit_file_at_dot]). *)
Definition stem_ext (name : ustring) : ustring * option ustring :=
  if list_eq_dec Z.eq_dec name dotdot then (name, None)
  else match rsplit_once dot name with
       | None => (name, None)
       | Some ([], _) => (name, None)
       | Some (before, after) => (before, Some after)
       end.

(** Drop the empty and [.] pieces at the front of a reversed piece list. *)
Fixpoint drop_cur (ps : list ustring) : list ustring :=
  match ps with
  | p :: ps' => if is_cur p then drop_cur ps' else ps
  | [] => []
  end.

Definition trim_cur_back (ps : list ustring) : list ustring := rev (drop_cur (rev ps)).

(** [PathBuf::pop] when the last component is [Normal]: truncation to
    [parent()], which drops the trailing empty and [.] pieces, the last
    piece, and the empty and [.] pieces before it, and keeps a root or a
    leading [.]. *)
Definition pop_normal (p : ustring) : ustring :=
  let strip body := trim_cur_back (removelast (trim_cur_back body)) in
  match p, split_sep p with
  | c :: _, q :: body =>
      if c =? slash then slash :: join_sep (strip body)
      else if list_eq_dec Z.eq_dec q [dot] then
        match strip body with [] => [dot] | b => dot :: slash :: join_sep b end
      else join_sep (strip (q :: body))
  | _, _ => p
  end.

(** [PathBuf::push] on Unix: an absolute [p] replaces the path, otherwise
    a separator is added unless the path is empty or ends in one. *)
Definition need_sep (base : ustring) : bool :=
  match rev base with [] => false | c :: _ => negb (c =? slash) end.

Definition path_push (base p : ustring) : ustring :=
  if match p with c :: _ => c =? slash | [] => false end then p
  else if need_sep base then base ++ slash :: p else base ++ p.

(** [Path::with_file_name] ([PathBuf::set_file_name]). *)
Definition with_file_name (p name : ustring) : ustring :=
  match path_file_name p with
  | Some _ => path_push (pop_normal p) name
  | None => path_push p name
  end.

(** [fs::rename(from, to)]: [true] is [Ok(())]. *)
Record FsEnv := { fs_rename : ustring -> ustring -> bool }.

(** [rename_file]; [None] is an [Err]. *)
Definition rename_file (fs : FsEnv) (path : ustring) : option ustring :=
  match path_file_name path with
  | None => None
  | Some filename =>
      let new_name := sanitize_filename filename in
      let new_path := with_file_name path new_name in
      if path_eqb path new_path then Some new_path
      else if fs.(fs_rename) path new_path then Some new_path else None
  end.

Fixpoint strip_prefix_u (pat s : ustring) : option ustring :=
  match pat, s with
  | [], _ => Some s
  | c :: pat', d :: s' => if c =? d then strip_prefix_u pat' s' else None
  | _ :: _, [] => None
  end.

(** [str::replace] for a non-empty pattern: matches are taken from the
    left and do not overlap; [skip] counts the characters of the current
    match that are still to be consumed. *)
Fixpoint replace_from (pat v s : ustring) (skip : nat) : ustring :=
  match s with
  | [] => []
  | c :: r =>
      match skip with
      | S k => replace_from pat v r k
      | O =>
          match strip_prefix_u pat s with
          | Some _ => v ++ replace_from pat v r (pred (List.length pat))
          | None => c :: replace_from pat v r O
          end
      end
  end.

Definition replace (pat v s : ustring) : ustring := replace_from pat v s O.

(** An ASCII literal as code points. *)
Fixpoint ustr (s : string) : ustring :=
  match s with
  | EmptyString => []
  | String a r => Z.of_nat (nat_of_ascii a) :: ustr r
  end.

(** [now.format("%Y%m%d%H%M%S")], [now.format("%Y-%m-%d")] and
    [now.format("%H-%M-%S")] of one [Local::now()]. *)
Record Clock := {
  clock_timestamp : ustring;
  clock_date : ustring;
  clock_time : ustring
}.

Definition key_input_name : ustring := ustr "{input_name}"%string.

Definition replacements (stem : ustring) (rotation : Z) (clock : Clock)
  : list (ustring * ustring) :=
  [(key_input_name, stem);
   (ustr "{rotation}"%string, ustr (Runner.Z_to_string rotation));
   (ustr "{timestamp}"%string, clock.(clock_timestamp));
   (ustr "{date}"%string, clock.(clock_date));
   (ustr "{time}"%string, clock.(clock_time))].

(** [for (key, value) in &replacements { filename = filename.replace(key, value); }] *)
Definition render (template : ustring) (reps : list (ustring * ustring)) : ustring :=
  fold_left (fun acc kv => replace (fst kv) (snd kv) acc) reps template.

(** [None] is the panic of [file_stem().unwrap()]. *)
Definition generate_output_path (fs : FsEnv) (clock : Clock)
    (input_path output_dir template : ustring) (rotation : Z)
  : option (ustring * ustring) :=
  let input_path :=
    match rename_file fs input_path with Some new_path => new_path | None => input_path end in
  match path_file_name input_path with
  | None => None
  | Some name =>
      let '(stem, ext) := stem_ext name in
      let filename := render template (replacements stem rotation clock) in
      let filename :=
        match ext with
        | Some e =>
            if existsb (fun c => c =? dot) filename then filename else filename ++ dot :: e
        | None => filename
        end in
      Some (regex_strip (path_push output_dir filename), input_path)
  end.

(** A code point as its UTF-8 bytes, and a string as bytes. *)
Definition utf8_bytes (c : Z) : list Z :=
  if c <? 128 then [c]
  else if c <? 2048 then [192 + c / 64; 128 + c mod 64]
  else if c <? 65536 then [224 + c / 4096; 128 + (c / 64) mod 64; 128 + c mod 64]
  else [240 + c / 262144; 128 + (c / 4096) mod 64; 128 + (c / 64) mod 64; 128 + c mod 64].

Definition to_string (s : ustring) : string :=
  string_of_list_ascii (map (fun b => ascii_of_nat (Z.to_nat b)) (flat_map utf8_bytes s)).

(** [prepare_batch_tasks]: [clock i] is [Local::now()] at the [i]-th call
    of [generate_output_path]; [None] is a panic of one of them. *)
Fixpoint prepare_from (fs : FsEnv) (clock : nat -> Clock) (i : nat) (sources : list ustring)
    (output_dir template : ustring) (start_time end_time : string) (rotation : Z)
  : option (list Runner.BatchTask) :=
  match sources with
  | [] => Some []
  | p :: ps =>
      match generate_output_path fs (clock i) p output_dir template rotation with
      | None => None
      | Some (output_path, new_input_path) =>
          match prepare_from fs clock (S i) ps output_dir template start_time end_time rotation with
          | None => None
          | Some tasks =>
              Some ({| Runner.input_path := to_string new_input_path;
                       Runner.output_path := to_string output_path;
                       Runner.start_time := start_time;
                       Runner.end_time := end_time;
                       Runner.rotation := rotation |} :: tasks)
          end
      end
  end.

Definition prepare_batch_tasks (fs : FsEnv) (clock : nat -> Clock) (sources : list ustring)
    (output_dir template : ustring) (start_time end_time : string) (rotation : Z)
  : option (list Runner.BatchTask) :=
  prepare_from fs clock O sources output_dir template start_time end_time rotation.

(** A piece of a path between separators. *)
Definition noslash (q : ustring) : Prop := ~ In slash q.

(** The number of components the body pieces [l] yield. *)
Definition comp_count (l : list ustring) : nat := List.length (flat_map body_component l).

(** A component [with_file_name] can produce as a last [Normal] one. *)
Definition normal_name (n : ustring) : Prop :=
  n <> [] /\ ~ In slash n /\ n <> [dot] /\ n <> dotdot.

End OutputPath.

(* ------------------------------------------------------------------ *)
(** ** The file list: [handle_file_drop] (main.rs 442-456), the remove and
    clear buttons of [file_management_panel] (main.rs 458-488), and
    [clear_previews] (main.rs 318-334) *)
Module Files.
Import Preview.
Local Open Scope string_scope.

(** The preview fields and the three video-information labels. *)
Record App := {
  vp : VP;
  video_duration : string;
  video_size : string;
  video_format : string
}.

Definition set_sources (ps : list string) (v : VP) : VP :=
  {| source_paths := ps; rotation := v.(rotation);
     start_preview_time := v.(start_preview_time); end_preview_time := v.(end_preview_time);
     start_preview_loading := v.(start_preview_loading); end_preview_loading := v.(end_preview_loading);
     start_preview_texture := v.(start_preview_texture); end_preview_texture := v.(end_preview_texture);
     current_start_preview_frame := v.(current_start_preview_frame);
     current_end_preview_frame := v.(current_end_preview_frame);
     last_preview_request_time := v.(last_preview_request_time);
     preview_thread := v.(preview_thread); spawned := v.(spawned) |}.

Definition with_vp (v : VP) (app : App) : App :=
  {| vp := v; video_duration := app.(video_duration); video_size := app.(video_size);
     video_format := app.(video_format) |}.

(** [get_video_info]: duration, size and format labels. *)
Definition VideoInfo := string -> string * string * string.

(** One dropped file; [None] is a drop without a path. *)
Definition drop_one (info : VideoInfo) (app : App) (file : option string) : App :=
  match file with
  | None => app
  | Some path_str =>
      if existsb (String.eqb path_str) app.(vp).(source_paths) then app
      else
        let '(duration, size, format) := info path_str in
        {| vp := set_sources (app.(vp).(source_paths) ++ [path_str]) app.(vp);
           video_duration := duration; video_size := size; video_format := format |}
  end.

Definition handle_file_drop (info : VideoInfo) (dropped_files : list (option string)) (app : App)
  : App :=
  fold_left (drop_one info) dropped_files app.

(** The [移除] buttons clicked in one frame, then [retain]. *)
Definition remove_paths (paths_to_remove : list string) (app : App) : App :=
  with_vp (set_sources (filter (fun p => negb (existsb (String.eqb p) paths_to_remove))
                               app.(vp).(source_paths)) app.(vp)) app.

(** [clear_previews]; each [try_lock] succeeds (the preview worker holds
    the frame lock only for its single store, modelled as atomic). *)
Definition clear_previews (v : VP) : VP :=
  {| source_paths := v.(source_paths); rotation := v.(rotation);
     start_preview_time := ""; end_preview_time := "";
     start_preview_loading := false; end_preview_loading := false;
     start_preview_texture := None; end_preview_texture := None;
     current_start_preview_frame := None; current_end_preview_frame := None;
     last_preview_request_time := v.(last_preview_request_time);
     preview_thread := v.(preview_thread); spawned := v.(spawned) |}.

(** The [清空列表] button. *)
Definition clear_list (app : App) : App := with_vp (clear_previews (set_sources [] app.(vp))) app.

End Files.

(* ------------------------------------------------------------------ *)
(** ** Parameter synchronisation in [settings_panel] (main.rs 501-568)

    [settings_panel] runs after [preview_panel] in the same frame, so the
    preview-time text fields cannot change between its snapshot and its
    test.  The widget values after this frame's input are [Edits]; the
    folder picker's [save_config] is not modelled. *)
Module Settings.
Import Preview.
Local Open Scope string_scope.

Record Params := {
  output_dir : string;
  output_template : string;
  start_time : string;
  end_time : string
}.

Record Edits := {
  ed_output_dir : string;
  ed_output_template : string;
  ed_start_time : string;
  ed_end_time : string;
  ed_rotation : Z
}.

Definition set_rotation (r : Z) (v : VP) : VP :=
  {| source_paths := v.(source_paths); rotation := r;
     start_preview_time := v.(start_preview_time); end_preview_time := v.(end_preview_time);
     start_preview_loading := v.(start_preview_loading); end_preview_loading := v.(end_preview_loading);
     start_preview_texture := v.(start_preview_texture); end_preview_texture := v.(end_preview_texture);
     current_start_preview_frame := v.(current_start_preview_frame);
     current_end_preview_frame := v.(current_end_preview_frame);
     last_preview_request_time := v.(last_preview_request_time);
     preview_thread := v.(preview_thread); spawned := v.(spawned) |}.

Definition set_preview_time (is_start : bool) (t : string) (v : VP) : VP :=
  {| source_paths := v.(source_paths); rotation := v.(rotation);
     start_preview_time := if is_start then t else v.(start_preview_time);
     end_preview_time := if is_start then v.(end_preview_time) else t;
     start_preview_loading := v.(start_preview_loading); end_preview_loading := v.(end_preview_loading);
     start_preview_texture := v.(start_preview_texture); end_preview_texture := v.(end_preview_texture);
     current_start_preview_frame := v.(current_start_preview_frame);
     current_end_preview_frame := v.(current_end_preview_frame);
     last_preview_request_time := v.(last_preview_request_time);
     preview_thread := v.(preview_thread); spawned := v.(spawned) |}.

Definition settings_panel (env : PreviewEnv) (now : Q) (ed : Edits) (pr : Params) (v : VP)
  : Params * VP :=
  let old_start_time := pr.(start_time) in
  let old_end_time := pr.(end_time) in
  let old_start_preview_time := v.(start_preview_time) in
  let old_end_preview_time := v.(end_preview_time) in
  let old_rotation := v.(rotation) in
  let pr1 := {| output_dir := ed.(ed_output_dir); output_template := ed.(ed_output_template);
                start_time := ed.(ed_start_time); end_time := ed.(ed_end_time) |} in
  let v1 := set_rotation ed.(ed_rotation) v in
  let v2 :=
    if (negb (String.eqb pr1.(start_time) old_start_time) || negb (v1.(rotation) =? old_rotation)%Z)
       && String.eqb v1.(start_preview_time) old_start_preview_time
    then generate_preview env now true (set_preview_time true pr1.(start_time) v1)
    else v1 in
  let v3 :=
    if (negb (String.eqb pr1.(end_time) old_end_time) || negb (v2.(rotation) =? old_rotation)%Z)
       && String.eqb v2.(end_preview_time) old_end_preview_time
    then generate_preview env now false (set_preview_time false pr1.(end_time) v2)
    else v2 in
  (pr1, v3).

End Settings.

(* ------------------------------------------------------------------ *)
(** ** The two buttons of [process_control] (main.rs 570-609)

    Every worker thread started by [开始处理] is a [Batch] phase machine
    over the same shared cells; [停止] clears the flag.  A click carries
    the queue [prepare_batch_tasks] built for it. *)
Module Control.
Import Runner Batch.

Record Sys := {
  shared : Shared;
  workers : list Phase
}.

Inductive UiEvent :=
| Click (queue : list BatchTask)   (* [开始处理], enabled when the flag read is [false] *)
| Stop                             (* [停止] *)
| Step (i : nat)                   (* one step of the [i]-th worker thread *)
| Read (i : nat).                  (* one store of the [i]-th stderr reader thread *)

Definition ui_step (env : Env) (sys : Sys) (ev : UiEvent) : Sys :=
  match ev with
  | Click queue =>
      if sys.(shared).(processing_flag) then sys
      else {| shared := sys.(shared); workers := sys.(workers) ++ [Spawned queue] |}
  | Stop => {| shared := stop_request sys.(shared); workers := sys.(workers) |}
  | Step i =>
      match nth_error sys.(workers) i with
      | Some ph =>
          let '(ph', s') := worker_step env ph sys.(shared) in
          {| shared := s'; workers := update_nth i ph' sys.(workers) |}
      | None => sys
      end
  | Read i => {| shared := reader_step i sys.(shared); workers := sys.(workers) |}
  end.

Definition run_ui (env : Env) (evs : list UiEvent) (sys : Sys) : Sys :=
  fold_left (ui_step env) evs sys.

End Control.

(* ------------------------------------------------------------------ *)
(** ** Scenarios for the file list, the output paths and the buttons *)
Module ExtraScenario.
Import Sanitize OutputPath.
Local Open Scope string_scope.

(** A writable directory, and a read-only one. *)
Definition fs_ok : FsEnv := {| fs_rename := fun _ _ => true |}.
Definition fs_read_only : FsEnv := {| fs_rename := fun _ _ => false |}.

(** [Local::now()] at 2024-01-01 12:00:00. *)
Definition clock0 : Clock := {|
  clock_timestamp := ustr "20240101120000";
  clock_date := ustr "2024-01-01";
  clock_time := ustr "12-00-00"
|}.

(** The template [VideoProcessor::default] sets. *)
Definition default_template : ustring := ustr "{input_name}_processed_{rotation}_{timestamp}".

(** One source with a start-time preview in flight. *)
Definition app_previewing : Files.App := {|
  Files.vp := Preview.generate_preview PreviewScenario.short_video_env 1 true PreviewScenario.fresh_vp;
  Files.video_duration := "00:10:00"; Files.video_size := "12.00 MB"; Files.video_format := "h264"
|}.

(** Video information as [get_video_info] reports it for any file. *)
Definition info0 : Files.VideoInfo := fun _ => ("00:10:00", "12.00 MB", "h264").

(** A settings frame that changes only the rotation, to 90 degrees. *)
Definition edits_rotate : Settings.Edits := {|
  Settings.ed_output_dir := "output"; Settings.ed_output_template := "{input_name}_processed_{rotation}_{timestamp}";
  Settings.ed_start_time := "0:00:10"; Settings.ed_end_time := "0:00:20"; Settings.ed_rotation := 90 |}.

(** The parameters before that frame. *)
Definition params0 : Settings.Params := {|
  Settings.output_dir := "output"; Settings.output_template := "{input_name}_processed_{rotation}_{timestamp}";
  Settings.start_time := "0:00:10"; Settings.end_time := "0:00:20" |}.

End ExtraScenario.

(* ================================================================== *)
(** * Proofs *)

Module SanitizeFacts.
Import Sanitize.

Lemma rsplit_once_some sep s l r :
  rsplit_once sep s = Some (l, r) -> s = l ++ sep :: r /\ ~ In sep r.
Proof.
  revert l r; induction s as [|c rest IH]; intros l r H; simpl in H; [discriminate|].
  destruct (rsplit_once sep rest) as [[l' r']|] eqn:E.
  - injection H as <- <-. destruct (IH _ _ eq_refl) as [-> Hn]. split; [reflexivity|exact Hn].
  - destruct (Z.eqb_spec c sep) as [->|]; [|discriminate].
    injection H as <- <-. split; [reflexivity|].
    intro Hin. clear IH. induction rest as [|d rest' IH']; [exact Hin|].
    simpl in E. destruct (rsplit_once sep rest') as [[]|]; [discriminate|].
    destruct (Z.eqb_spec d sep); [discriminate|].
    destruct Hin as [->|Hin]; [congruence|exact (IH' E Hin)].
Qed.

Lemma rsplit_once_none sep s : rsplit_once sep s = None -> ~ In sep s.
Proof.
  induction s as [|c rest IH]; simpl; intros H; [tauto|].
  destruct (rsplit_once sep rest) as [[]|]; [discriminate|].
  destruct (Z.eqb_spec c sep); [discriminate|].
  intros [->|Hin]; [congruence|exact (IH eq_refl Hin)].
Qed.

Lemma rsplit_once_no_sep sep s : ~ In sep s -> rsplit_once sep s = None.
Proof.
  induction s as [|c rest IH]; simpl; intros Hn; [reflexivity|].
  rewrite IH by tauto. destruct (Z.eqb_spec c sep); [subst; tauto|reflexivity].
Qed.

Lemma rsplit_once_app sep l r :
  ~ In sep r -> rsplit_once sep (l ++ sep :: r) = Some (l, r).
Proof.
  intros Hn. induction l as [|c l IH]; simpl.
  - rewrite rsplit_once_no_sep by exact Hn. rewrite Z.eqb_refl. reflexivity.
  - rewrite IH. reflexivity.
Qed.

Lemma filter_true {A} (f : A -> bool) s : Forall (fun c => f c = true) s -> filter f s = s.
Proof. induction 1; simpl; [reflexivity|]. rewrite H, IHForall. reflexivity. Qed.

Lemma filter_nodot_spec s : ~ In dot (filter (fun c => negb (c =? dot)) s).
Proof.
  intros Hin. apply filter_In in Hin as [_ H]. rewrite Z.eqb_refl in H. discriminate.
Qed.

Lemma keep_all_filter s : filter (fun c => negb (c =? dot) || (c =? dot)) s = s.
Proof. apply filter_true, Forall_forall. intros c _. destruct (c =? dot); reflexivity. Qed.

Lemma nodot_filter_id s : ~ In dot s -> filter (fun c => negb (c =? dot)) s = s.
Proof.
  intros Hn. apply filter_true, Forall_forall. intros c Hc.
  destruct (Z.eqb_spec c dot); [subst; tauto|reflexivity].
Qed.

(** Shape of the result: a dot-free stem, and a dot-free extension after
    a single dot when the extension is non-empty. *)
Lemma sanitize_shape x :
  exists stem ext,
    sanitize_filename x = (match ext with [] => stem | _ => stem ++ [dot] ++ ext end) /\
    ~ In dot stem /\ ~ In dot ext /\
    incl stem (regex_strip x) /\ incl ext (regex_strip x).
Proof.
  unfold sanitize_filename.
  destruct (rsplit_once dot (regex_strip x)) as [[l r]|] eqn:E.
  - destruct (rsplit_once_some _ _ _ _ E) as [Heq Hn].
    exists (filter (fun c => negb (c =? dot)) (filter (fun c => negb (c =? dot) || (c =? dot)) l)), r.
    refine (conj eq_refl (conj _ (conj Hn (conj _ _)))).
    + apply filter_nodot_spec.
    + intros c Hc. rewrite keep_all_filter in Hc. apply filter_In in Hc as [Hc _].
      rewrite Heq. apply in_or_app. left; exact Hc.
    + intros c Hc. rewrite Heq. apply in_or_app. right; right; exact Hc.
  - exists (filter (fun c => negb (c =? dot)) (filter (fun c => negb (c =? dot) || (c =? dot)) (regex_strip x))), [].
    refine (conj eq_refl (conj _ (conj _ (conj _ _)))).
    + apply filter_nodot_spec.
    + simpl; tauto.
    + intros c Hc. rewrite keep_all_filter in Hc. apply filter_In in Hc as [Hc _]. exact Hc.
    + intros c [].
Qed.

Lemma regex_strip_allowed x c : In c (regex_strip x) -> allowed c = true.
Proof. intros H. apply filter_In in H as [_ H]. exact H. Qed.

(** C9: the result keeps only allowed characters, holds at most one dot,
    and sanitizing twice is the same as sanitizing once. *)
Theorem sanitize_filename_spec x :
  Forall (fun c => allowed c = true) (sanitize_filename x) /\
  (count_dots (sanitize_filename x) <= 1)%nat /\
  sanitize_filename (sanitize_filename x) = sanitize_filename x.
Proof.
  destruct (sanitize_shape x) as (stem & ext & Heq & Hs & He & Is & Ie).
  assert (Hstem0 : count_dots stem = 0%nat) by (apply count_occ_not_In; exact Hs).
  assert (Hext0 : count_dots ext = 0%nat) by (apply count_occ_not_In; exact He).
  assert (Hall : Forall (fun c => allowed c = true) (sanitize_filename x)).
  { rewrite Heq, Forall_forall. intros c Hc.
    destruct ext as [|e ext'].
    - apply (regex_strip_allowed x), Is, Hc.
    - apply in_app_or in Hc as [Hc|[<-|Hc]].
      + apply (regex_strip_allowed x), Is, Hc.
      + reflexivity.
      + apply (regex_strip_allowed x), Ie, Hc. }
  split; [exact Hall|split].
  - rewrite Heq. unfold count_dots in *. destruct ext as [|e ext'].
    + rewrite Hstem0. lia.
    + rewrite count_occ_app. simpl.
      destruct (Z.eq_dec dot dot) as [_|]; [|congruence].
      rewrite Hstem0. simpl in Hext0. destruct (Z.eq_dec e dot); [discriminate|]. lia.
  - assert (Hstrip : regex_strip (sanitize_filename x) = sanitize_filename x)
      by (apply filter_true; exact Hall).
    unfold sanitize_filename at 1. rewrite Hstrip. rewrite Heq.
    destruct ext as [|e ext'].
    + rewrite (rsplit_once_no_sep _ _ Hs). rewrite keep_all_filter, nodot_filter_id by exact Hs.
      reflexivity.
    + simpl app. rewrite (rsplit_once_app _ _ _ He).
      rewrite keep_all_filter, nodot_filter_id by exact Hs. reflexivity.
Qed.

End SanitizeFacts.

Module StrFacts.
Import Str.
Local Open Scope string_scope.

Lemma append_assoc (x y z : string) : (x ++ y) ++ z = x ++ (y ++ z).
Proof. induction x as [|a x IH]; simpl; [reflexivity|now rewrite IH]. Qed.

Lemma append_nil_r (x : string) : x ++ "" = x.
Proof. induction x as [|a x IH]; simpl; [reflexivity|now rewrite IH]. Qed.

Lemma append_length (x y : string) : length (x ++ y) = (length x + length y)%nat.
Proof. induction x as [|a x IH]; simpl; [reflexivity|now rewrite IH]. Qed.

Lemma strip_prefix_self pat y : strip_prefix pat (pat ++ y) = Some y.
Proof.
  induction pat as [|c p IH]; simpl; [reflexivity|].
  rewrite Ascii.eqb_refl. exact IH.
Qed.

Lemma strip_prefix_app_long pat x y :
  (length pat <= length x)%nat ->
  strip_prefix pat (x ++ y) = option_map (fun r => r ++ y) (strip_prefix pat x).
Proof.
  revert x; induction pat as [|c p IH]; intros x Hl; simpl; [reflexivity|].
  destruct x as [|d x]; simpl in *; [lia|].
  destruct (Ascii.eqb c d); [apply IH; lia|reflexivity].
Qed.

(** The first occurrence of [pat] is found right after [pre] when no
    occurrence starts inside [pre]. *)
Lemma split_once_first p c pre post :
  contains (p ++ String c "") (pre ++ p) = false ->
  split_once (p ++ String c "") (pre ++ (p ++ String c "") ++ post) = Some (pre, post).
Proof.
  induction pre as [|a pre IH]; intros Hc.
  - simpl. destruct p as [|d p']; simpl.
    + rewrite Ascii.eqb_refl. reflexivity.
    + rewrite Ascii.eqb_refl.
      rewrite (strip_prefix_self (p' ++ String c "") post). reflexivity.
  - unfold contains in Hc. simpl in Hc.
    destruct (strip_prefix (p ++ String c "") (String a (pre ++ p))) eqn:Hs; [discriminate|].
    destruct (split_once (p ++ String c "") (pre ++ p)) as [[]|] eqn:Hr; [discriminate|].
    assert (Hc' : contains (p ++ String c "") (pre ++ p) = false) by (unfold contains; now rewrite Hr).
    change (String a pre ++ (p ++ String c "") ++ post) with (String a (pre ++ (p ++ String c "") ++ post)).
    simpl split_once at 1.
    replace (String a (pre ++ (p ++ String c "") ++ post))
      with (String a (pre ++ p) ++ String c post)
      by (simpl; f_equal; rewrite append_assoc, append_assoc; reflexivity).
    rewrite strip_prefix_app_long, Hs by (simpl; rewrite !append_length; simpl; lia).
    simpl. replace (pre ++ p ++ String c post) with (pre ++ (p ++ String c "") ++ post)
      by (rewrite append_assoc; reflexivity).
    rewrite (IH Hc'). reflexivity.
Qed.

Lemma split_once_single c x y :
  contains (String c "") x = false -> split_once (String c "") (x ++ String c y) = Some (x, y).
Proof.
  intros H. rewrite <- (append_nil_r x) in H.
  exact (split_once_first "" c x y H).
Qed.

Lemma split_once_absent pat s : contains pat s = false -> split_once pat s = None.
Proof. unfold contains. destruct (split_once pat s); [discriminate|reflexivity]. Qed.

Lemma contains_strip_none pat x : contains pat x = false -> strip_prefix pat x = None.
Proof.
  unfold contains. destruct x as [|c x]; simpl;
    destruct (strip_prefix pat _); try discriminate; reflexivity.
Qed.

Lemma contains_cons pat c x : contains pat (String c x) = false -> contains pat x = false.
Proof.
  unfold contains. simpl. destruct (strip_prefix pat (String c x)); [discriminate|].
  destruct (split_once pat x) as [[]|]; [discriminate|reflexivity].
Qed.

(** A pattern without a space does not match across a space. *)
Lemma strip_prefix_space pat x r :
  contains " " pat = false -> strip_prefix pat x = None ->
  strip_prefix pat (x ++ String " " r) = None.
Proof.
  revert x; induction pat as [|c p IH]; intros x Hsp Hx; [simpl in Hx; discriminate|].
  pose proof (contains_cons _ _ _ Hsp) as Hp.
  destruct x as [|d x]; simpl.
  - unfold contains in Hsp. cbn [split_once strip_prefix] in Hsp.
    destruct (Ascii.eqb " " c) eqn:E; [discriminate|].
    rewrite Ascii.eqb_sym, E. reflexivity.
  - simpl in Hx. destruct (Ascii.eqb c d); [apply IH; assumption|reflexivity].
Qed.

Lemma split_once_before_space pat x r :
  contains " " pat = false -> contains pat x = false ->
  split_once pat (x ++ String " " r) =
  option_map (fun ab => (x ++ String " " (fst ab), snd ab)) (split_once pat r).
Proof.
  intros Hsp. induction x as [|c x IH]; intros Hx.
  - cbn [append split_once].
    rewrite (strip_prefix_space pat "" r Hsp (contains_strip_none _ _ Hx)
             : strip_prefix pat (String " " r) = None).
    destruct (split_once pat r) as [[]|]; reflexivity.
  - change (String c x ++ String " " r) with (String c (x ++ String " " r)).
    simpl split_once at 1.
    change (String c (x ++ String " " r)) with (String c x ++ String " " r).
    rewrite (strip_prefix_space pat (String c x) r Hsp (contains_strip_none _ _ Hx)).
    simpl. rewrite (IH (contains_cons _ _ _ Hx)).
    destruct (split_once pat r) as [[]|]; reflexivity.
Qed.

Lemma hd_split_space tok y :
  contains " " tok = false -> hd_error (split " " (tok ++ String " " y)) = Some tok.
Proof.
  intros Hsp. unfold split. cbn [split_fuel].
  rewrite (split_once_single " "%char tok y Hsp). reflexivity.
Qed.

End StrFacts.

Module ProgressFacts.
Import Str StrFacts Progress QFloat.
Local Open Scope string_scope.

(** Where the code reads the time token from: the segment after the first
    [time=] marker, up to the first space; a later marker after that space
    only shortens the segment. *)
Lemma marker_token pre tok rest :
  contains "time=" (pre ++ "time") = false ->
  contains "time=" tok = false ->
  contains " " tok = false ->
  (rest = "" \/ exists r, rest = " " ++ r) ->
  contains "time=" (pre ++ "time=" ++ tok ++ rest) = true /\
  exists seg, nth_error (split "time=" (pre ++ "time=" ++ tok ++ rest)) 1 = Some seg /\
              hd_error (split " " seg) = Some tok.
Proof.
  intros Hpre Htok Hsp Hrest.
  pose proof (split_once_first "time" "="%char pre (tok ++ rest) Hpre) as Hs.
  change ("time" ++ String "=" "") with "time=" in Hs.
  split; [unfold contains; now rewrite Hs|].
  unfold split. remember (length (pre ++ "time=" ++ tok ++ rest)) as n eqn:En.
  rewrite !append_length in En. simpl in En.
  destruct n as [|[|n]]; [lia|lia|]. cbn [split_fuel]. rewrite Hs.
  cbn [split_fuel nth_error].
  destruct Hrest as [->|[r ->]].
  - rewrite append_nil_r, (split_once_absent _ _ Htok). eexists; split; [reflexivity|].
    unfold split. cbn [split_fuel]. rewrite (split_once_absent _ _ Hsp). reflexivity.
  - change (" " ++ r) with (String " " r).
    rewrite (split_once_before_space "time=" tok r eq_refl Htok).
    destruct (split_once "time=" r) as [[a b]|]; cbn [option_map fst snd];
      eexists; (split; [reflexivity|]); apply hd_split_space, Hsp.
Qed.

Lemma split_colon3 h m s :
  contains ":" h = false -> contains ":" m = false -> contains ":" s = false ->
  split ":" (h ++ ":" ++ m ++ ":" ++ s) = [h; m; s].
Proof.
  intros Hh Hm Hs. unfold split.
  remember (length (h ++ ":" ++ m ++ ":" ++ s)) as n eqn:En.
  rewrite !append_length in En. simpl in En.
  destruct n as [|[|n]]; [lia|lia|].
  simpl split_fuel. rewrite (split_once_single ":"%char h _ Hh).
  rewrite (split_once_single ":"%char m _ Hm).
  destruct n; simpl; rewrite (split_once_absent _ _ Hs); reflexivity.
Qed.

Lemma split_colon2 m s :
  contains ":" m = false -> contains ":" s = false ->
  split ":" (m ++ ":" ++ s) = [m; s].
Proof.
  intros Hm Hs. unfold split.
  remember (length (m ++ ":" ++ s)) as n eqn:En.
  rewrite !append_length in En. simpl in En.
  destruct n as [|n]; [lia|].
  simpl split_fuel. rewrite (split_once_single ":"%char m _ Hm).
  destruct n; simpl; rewrite (split_once_absent _ _ Hs); reflexivity.
Qed.

Section Generic.
Context {F : Type} `{Float32Like F}.

Lemma parse_no_marker line :
  contains "time=" line = false -> parse_ffmpeg_progress line = None.
Proof. intros Hc. unfold parse_ffmpeg_progress. now rewrite Hc. Qed.

Lemma parse_at_token pre tok rest :
  contains "time=" (pre ++ "time") = false ->
  contains "time=" tok = false ->
  contains " " tok = false ->
  (rest = "" \/ exists r, rest = " " ++ r) ->
  parse_ffmpeg_progress (pre ++ "time=" ++ tok ++ rest) =
  match split ":" tok with
  | [p0; p1; p2] =>
      match f_parse p0, f_parse p1, f_parse p2 with
      | Some hours, Some minutes, Some seconds =>
          Some (f_div (f_add (f_add (f_mul hours (f_lit 3600)) (f_mul minutes (f_lit 60)))
                             seconds) (f_lit 100))
      | _, _, _ => None
      end
  | [p0; p1] =>
      match f_parse p0, f_parse p1 with
      | Some minutes, Some seconds =>
          Some (f_div (f_add (f_mul minutes (f_lit 60)) seconds) (f_lit 100))
      | _, _ => None
      end
  | _ => None
  end.
Proof.
  intros H1 H2 H3 H4.
  destruct (marker_token pre tok rest H1 H2 H3 H4) as (Hc & seg & Hn & Hh).
  unfold parse_ffmpeg_progress. rewrite Hc, Hn.
  destruct (split " " seg) as [|t ts]; [discriminate|].
  injection Hh as ->. reflexivity.
Qed.

End Generic.

(** C4: a line without [time=] gives no update; after the marker, an
    [HH:MM:SS[.ms]] token gives [(HH*3600 + MM*60 + SS)/100] and an
    [MM:SS[.ms]] token gives [(MM*60 + SS)/100]; if any numeric part fails
    to parse the result is [None].  Stated for any [f32]-like number type;
    the token is delimited by the first space after the first marker, and
    whatever follows that space (another marker included) is ignored. *)
Theorem parse_ffmpeg_progress_spec {F} `{Float32Like F} :
  (forall line, contains "time=" line = false -> parse_ffmpeg_progress line = None) /\
  (forall pre hh mm ss rest,
     contains "time=" (pre ++ "time") = false ->
     contains ":" hh = false -> contains ":" mm = false -> contains ":" ss = false ->
     contains " " (hh ++ ":" ++ mm ++ ":" ++ ss) = false ->
     contains "time=" (hh ++ ":" ++ mm ++ ":" ++ ss) = false ->
     (rest = "" \/ exists r, rest = " " ++ r) ->
     parse_ffmpeg_progress (pre ++ "time=" ++ (hh ++ ":" ++ mm ++ ":" ++ ss) ++ rest) =
     match f_parse hh, f_parse mm, f_parse ss with
     | Some hours, Some minutes, Some seconds =>
         Some (f_div (f_add (f_add (f_mul hours (f_lit 3600)) (f_mul minutes (f_lit 60)))
                            seconds) (f_lit 100))
     | _, _, _ => None
     end) /\
  (forall pre mm ss rest,
     contains "time=" (pre ++ "time") = false ->
     contains ":" mm = false -> contains ":" ss = false ->
     contains " " (mm ++ ":" ++ ss) = false ->
     contains "time=" (mm ++ ":" ++ ss) = false ->
     (rest = "" \/ exists r, rest = " " ++ r) ->
     parse_ffmpeg_progress (pre ++ "time=" ++ (mm ++ ":" ++ ss) ++ rest) =
     match f_parse mm, f_parse ss with
     | Some minutes, Some seconds =>
         Some (f_div (f_add (f_mul minutes (f_lit 60)) seconds) (f_lit 100))
     | _, _ => None
     end).
Proof.
  split; [exact parse_no_marker|split].
  - intros pre hh mm ss rest Hp Hh Hm Hs Hsp Ht Hr.
    rewrite (parse_at_token pre _ rest Hp Ht Hsp Hr), (split_colon3 hh mm ss Hh Hm Hs).
    reflexivity.
  - intros pre mm ss rest Hp Hm Hs Hsp Ht Hr.
    rewrite (parse_at_token pre _ rest Hp Ht Hsp Hr), (split_colon2 mm ss Hm Hs).
    reflexivity.
Qed.

(** The theorem at the spec's sample lines, with exact rationals:
    0.905 for both, and [None] for a line without the marker; a second
    marker after the token changes nothing. *)
Lemma parse_ffmpeg_progress_spec_witness :
  option_map Qred (parse_ffmpeg_progress "frame=10 time=00:01:30.50 bitrate=...") = Some (181 # 200)%Q /\
  option_map Qred (parse_ffmpeg_progress "time=01:30.50") = Some (181 # 200)%Q /\
  parse_ffmpeg_progress (F := Q) "frame=10 fps=25" = None /\
  option_map Qred (parse_ffmpeg_progress "frame=1 time=00:01:30.50 x time=99") = Some (181 # 200)%Q.
Proof.
  split; [|split; [|split]].
  - rewrite (proj1 (proj2 parse_ffmpeg_progress_spec) "frame=10 " "00" "01" "30.50" " bitrate=...");
      try reflexivity.
    right. exists "bitrate=...". reflexivity.
  - rewrite (proj2 (proj2 parse_ffmpeg_progress_spec) "" "01" "30.50" "");
      try reflexivity.
    left. reflexivity.
  - apply (proj1 parse_ffmpeg_progress_spec). reflexivity.
  - rewrite (proj1 (proj2 parse_ffmpeg_progress_spec) "frame=1 " "00" "01" "30.50" " x time=99");
      try reflexivity.
    right. exists "x time=99". reflexivity.
Defined.

End ProgressFacts.
Module TimeFacts.
Import Time.

Lemma digit_val_digit d : 0 <= d <= 9 -> QFloat.digit_val (digit d) = Some d.
Proof.
  intros Hd.
  assert (d = 0 \/ d = 1 \/ d = 2 \/ d = 3 \/ d = 4 \/ d = 5 \/ d = 6 \/ d = 7 \/ d = 8 \/ d = 9)%Z
    as Hc by lia.
  repeat destruct Hc as [->|Hc]; try reflexivity; subst; reflexivity.
Qed.

Lemma take_num2_two_digits n r :
  0 <= n <= 99 -> take_num2 (two_digits n ++ r) = Some (n, r).
Proof.
  intros Hn. unfold take_num2, two_digits. cbn [String.append].
  assert (0 <= n / 10 <= 9).
  { split; [apply Z.div_pos; lia|].
    assert (n / 10 < 10) by (apply Z.div_lt_upper_bound; lia). lia. }
  rewrite (digit_val_digit (n / 10)) by lia.
  rewrite (digit_val_digit (n mod 10)) by (pose proof (Z.mod_pos_bound n 10); lia).
  f_equal. f_equal. pose proof (Z.div_mod n 10). lia.
Qed.

Lemma trim_start_digit d r :
  0 <= d <= 9 -> trim_start (String (digit d) r) = String (digit d) r.
Proof.
  intros Hd.
  assert (d = 0 \/ d = 1 \/ d = 2 \/ d = 3 \/ d = 4 \/ d = 5 \/ d = 6 \/ d = 7 \/ d = 8 \/ d = 9)%Z
    as Hc by lia.
  repeat destruct Hc as [->|Hc]; try reflexivity; subst; reflexivity.
Qed.

Lemma space_colon_colon x : space_colon (String ":" x) = Some x.
Proof. reflexivity. Qed.

Lemma time_field_head n f :
  time_field n f -> 0 <= n <= 99 -> exists d t, 0 <= d <= 9 /\ f = String (digit d) t.
Proof.
  intros [->|[Hn ->]] Hr.
  - exists (n / 10). eexists. split; [|reflexivity].
    split; [apply Z.div_pos; lia|].
    assert (n / 10 < 10) by (apply Z.div_lt_upper_bound; lia). lia.
  - exists n, EmptyString. split; [lia|reflexivity].
Qed.

(** A field is read whole when the end of input or a [:] follows it. *)
Lemma numeric2_field n f r :
  time_field n f -> 0 <= n <= 99 -> (r = EmptyString \/ exists r', r = String ":" r') ->
  numeric2 (f ++ r) = Some (n, r).
Proof.
  intros Hf Hn Hr. unfold numeric2.
  destruct (time_field_head n f Hf Hn) as (d & t & Hd & Ht).
  assert (Htr : trim_start (f ++ r)%string = (f ++ r)%string)
    by (rewrite Ht; cbn [String.append]; apply trim_start_digit; exact Hd).
  rewrite Htr. clear Ht Htr. destruct Hf as [->|[Hn9 ->]].
  - apply take_num2_two_digits, Hn.
  - unfold take_num2. cbn [String.append]. rewrite (digit_val_digit n Hn9).
    destruct Hr as [->|[r' ->]]; reflexivity.
Qed.

Lemma naive_time_from_str_fields h m s fh fm fs :
  0 <= h <= 23 -> 0 <= m <= 59 -> 0 <= s <= 59 ->
  time_field h fh -> time_field m fm -> time_field s fs ->
  naive_time_from_str (fh ++ ":" ++ fm ++ ":" ++ fs) = Some (h * 3600 + m * 60 + s, 0).
Proof.
  intros Hh Hm Hs Fh Fm Fs. unfold naive_time_from_str.
  rewrite (numeric2_field h fh) by first [assumption | lia | (right; eexists; reflexivity)].
  replace (h <=? 23) with true by (symmetry; apply Z.leb_le; lia).
  cbn [String.append]. rewrite space_colon_colon.
  rewrite (numeric2_field m fm) by first [assumption | lia | (right; eexists; reflexivity)].
  replace (m <=? 59) with true by (symmetry; apply Z.leb_le; lia).
  assert (E : second_part (String ":" fs) = Some (s, 0, EmptyString)).
  { unfold second_part. rewrite space_colon_colon.
    rewrite <- (StrFacts.append_nil_r fs).
    rewrite (numeric2_field s fs) by first [assumption | lia | (left; reflexivity)].
    replace (s <=? 60) with true by (symmetry; apply Z.leb_le; lia).
    reflexivity. }
  rewrite E. cbn [trim_start]. unfold to_naive_time.
  replace (Z.min s 59) with s by lia.
  replace (s =? 60)%Z with false by (symmetry; apply Z.eqb_neq; lia).
  reflexivity.
Qed.

Lemma naive_time_from_str_hms h m s :
  0 <= h <= 23 -> 0 <= m <= 59 -> 0 <= s <= 59 ->
  naive_time_from_str (hms h m s) = Some (h * 3600 + m * 60 + s, 0).
Proof.
  intros Hh Hm Hs. unfold hms.
  apply naive_time_from_str_fields; try assumption; left; reflexivity.
Qed.

(** C8: [compare_times] panics (here [None]) on a malformed time such as
    ["abc"], and on two well-formed [H:MM:SS] strings, each field written
    with two digits or (below 10) one, it returns the ordering of their
    seconds of day. *)
Theorem compare_times_spec :
  compare_times "abc"%string "00:00:00"%string = None /\
  (forall h1 m1 s1 h2 m2 s2 fh1 fm1 fs1 fh2 fm2 fs2,
     0 <= h1 <= 23 -> 0 <= m1 <= 59 -> 0 <= s1 <= 59 ->
     0 <= h2 <= 23 -> 0 <= m2 <= 59 -> 0 <= s2 <= 59 ->
     time_field h1 fh1 -> time_field m1 fm1 -> time_field s1 fs1 ->
     time_field h2 fh2 -> time_field m2 fm2 -> time_field s2 fs2 ->
     compare_times (fh1 ++ ":" ++ fm1 ++ ":" ++ fs1)%string (fh2 ++ ":" ++ fm2 ++ ":" ++ fs2)%string =
     Some (Z.compare (h1 * 3600 + m1 * 60 + s1) (h2 * 3600 + m2 * 60 + s2))).
Proof.
  split; [reflexivity|].
  intros h1 m1 s1 h2 m2 s2 fh1 fm1 fs1 fh2 fm2 fs2 ? ? ? ? ? ? ? ? ? ? ? ?.
  unfold compare_times.
  rewrite (naive_time_from_str_fields h1 m1 s1 fh1 fm1 fs1), (naive_time_from_str_fields h2 m2 s2 fh2 fm2 fs2) by assumption.
  unfold naive_time_cmp. simpl fst; simpl snd.
  destruct (Z.compare _ _); reflexivity.
Qed.

(** The spec's clip-range sample ["0:00:10"] against ["0:00:05"], a
    zero-padded pair, and ["abc"]. *)
Lemma compare_times_spec_witness :
  compare_times "abc"%string "00:00:00"%string = None /\
  compare_times "0:00:10"%string "0:00:05"%string = Some Gt /\
  compare_times "01:02:03"%string "00:59:59"%string = Some Gt.
Proof.
  split; [exact (proj1 compare_times_spec)|split].
  - exact ((proj2 compare_times_spec) 0 0 10 0 0 5 "0"%string "00"%string "10"%string "0"%string "00"%string "05"%string
             ltac:(lia) ltac:(lia) ltac:(lia) ltac:(lia) ltac:(lia) ltac:(lia)
             ltac:(right; split; [lia|reflexivity]) ltac:(left; reflexivity) ltac:(left; reflexivity)
             ltac:(right; split; [lia|reflexivity]) ltac:(left; reflexivity) ltac:(left; reflexivity)).
  - exact ((proj2 compare_times_spec) 1 2 3 0 59 59 "01"%string "02"%string "03"%string "00"%string "59"%string "59"%string
             ltac:(lia) ltac:(lia) ltac:(lia) ltac:(lia) ltac:(lia) ltac:(lia)
             ltac:(left; reflexivity) ltac:(left; reflexivity) ltac:(left; reflexivity)
             ltac:(left; reflexivity) ltac:(left; reflexivity) ltac:(left; reflexivity)).
Defined.

End TimeFacts.

Module RunnerFacts.
Import Time Runner Scenario.
Local Open Scope string_scope.

(** C10: when the range is not increasing and there is no rotation the
    command is just [-i <input>]: no output file and no codec argument;
    otherwise it names the output file and the [copy] codec. *)
Theorem ffmpeg_args_output_only_if_clip_or_rotation task args :
  ffmpeg_args task = Some args ->
  (task.(rotation) = 0%Z ->
   compare_times task.(start_time) task.(end_time) <> Some Lt ->
   args = ["-i"; task.(input_path)]) /\
  (compare_times task.(start_time) task.(end_time) = Some Lt \/ task.(rotation) <> 0%Z ->
   In task.(output_path) args /\ In "copy" args).
Proof.
  unfold ffmpeg_args.
  destruct (compare_times (start_time task) (end_time task)) as [ord|] eqn:Hc; [|discriminate].
  intros H. injection H as <-. split.
  - intros Hr Hlt. rewrite Hr. simpl.
    destruct ord; [reflexivity|congruence|reflexivity].
  - intros [Hlt|Hr].
    + injection Hlt as ->. simpl. split; tauto.
    + replace (negb (rotation task =? 0)%Z) with true
        by (symmetry; apply negb_true_iff, Z.eqb_neq; exact Hr).
      split; right; right; apply in_or_app; right; simpl; tauto.
Qed.

Lemma ffmpeg_args_output_only_if_clip_or_rotation_witness :
  ffmpeg_args reversed_range_task = Some ["-i"; "movie.mp4"] /\
  ["-i"; "movie.mp4"] = ["-i"; reversed_range_task.(input_path)].
Proof.
  split; [reflexivity|].
  apply (proj1 (ffmpeg_args_output_only_if_clip_or_rotation reversed_range_task _ eq_refl)).
  - reflexivity.
  - vm_compute. discriminate.
Defined.

(** C5 (failing input): with end before start and no rotation the
    encoder receives no [-ss]/[-to] but also no output file and no
    codec: the invocation is [ffmpeg -i movie.mp4]. *)
Theorem reversed_range_no_output :
  ffmpeg_args reversed_range_task = Some ["-i"; "movie.mp4"] /\
  compare_times reversed_range_task.(start_time) reversed_range_task.(end_time) = Some Gt.
Proof. split; reflexivity. Qed.

End RunnerFacts.

Module BatchFacts.
Import QFloat Runner Batch.

Lemma run_worker_steps env n ph s :
  run env (repeat WorkerStep (S n)) ph s =
  let '(ph', s') := worker_step env ph s in run env (repeat WorkerStep n) ph' s'.
Proof. reflexivity. Qed.

Lemma run_done env n s : run env (repeat WorkerStep n) Done s = (Done, s).
Proof. induction n; [reflexivity|exact IHn]. Qed.

Lemma progress_updates_parsed lines : Forall parsed_value (progress_updates lines).
Proof.
  apply Forall_forall. intros q Hq. unfold progress_updates in Hq.
  apply in_flat_map in Hq as [l [_ Hl]].
  destruct (Progress.parse_ffmpeg_progress l) as [p|] eqn:E; [|destruct Hl].
  destruct Hl as [<-|[]]. exists l. exact E.
Qed.

Lemma process_task_writes_parsed env t : Forall parsed_value (snd (process_task env t)).
Proof.
  assert (Hr : Forall parsed_value (snd (run_ffmpeg env t))).
  { unfold run_ffmpeg. destruct (ffmpeg_args t) as [args|]; [|constructor].
    destruct (spawn env args); simpl; try constructor; apply progress_updates_parsed. }
  unfold process_task. destruct (path_parent (output_path t)) as [p|]; [|exact Hr].
  destruct (create_dir_all env p); [constructor|exact Hr].
Qed.

Lemma Forall_update_nth {A} (P : A -> Prop) i x l :
  Forall P l -> P x -> Forall P (update_nth i x l).
Proof.
  revert i; induction l as [|y l IH]; intros [|i] Hl Hx; simpl; try constructor;
    inversion Hl; subst; auto.
Qed.

Lemma is_done_true ph : is_done ph = true -> ph = Done.
Proof. destruct ph; first [reflexivity|discriminate]. Qed.

(** One event: the readers keep holding parser values, and the event
    writes either parser values without the worker ending, or the worker's
    final [0]. *)
Lemma event_writes env ev ph s :
  Forall (Forall parsed_value) s.(readers) ->
  let r := run env [ev] ph s in
  Forall (Forall parsed_value) (snd r).(readers) /\
  exists w, (snd r).(progress_writes) = s.(progress_writes) ++ w /\
  ((is_done (fst r) = is_done ph /\ Forall parsed_value w) \/
   (is_done ph = false /\ fst r = Done /\ w = [0%Q])).
Proof.
  intros Hr. destruct ev as [| |i]; cbn [run].
  - destruct ph as [tasks|[|t ts]| | |]; cbn [worker_step fst snd].
    + split; [exact Hr|]. exists []. rewrite app_nil_r. split; [reflexivity|left; auto].
    + split; [exact Hr|]. exists []. rewrite app_nil_r. split; [reflexivity|left; auto].
    + pose proof (process_task_writes_parsed env t) as Hp.
      destruct (process_task env t) as [out ws]. simpl in Hp. cbn beta iota.
      assert (Hr' : Forall (Forall parsed_value) (readers s ++ [ws]))
        by (apply Forall_app; split; [exact Hr|constructor; [exact Hp|constructor]]).
      destruct out; cbn [fst snd readers progress_writes spawn_reader set_message log_invocation];
        (split; [exact Hr'|exists []; rewrite app_nil_r; split; [reflexivity|left; auto]]).
    + split; [exact Hr|]. exists [0%Q]. split; [reflexivity|right; auto].
    + split; [exact Hr|]. exists []. rewrite app_nil_r. split; [reflexivity|left; auto].
    + split; [exact Hr|]. exists []. rewrite app_nil_r. split; [reflexivity|left; auto].
  - cbn [fst snd]. split; [exact Hr|]. exists []. rewrite app_nil_r. split; [reflexivity|left; auto].
  - cbn [fst snd]. unfold reader_step.
    destruct (nth_error (readers s) i) as [[|p ws]|] eqn:E;
      try (split; [exact Hr|exists []; rewrite app_nil_r; split; [reflexivity|left; auto]]).
    apply nth_error_In in E. rewrite Forall_forall in Hr. pose proof (Hr _ E) as Hpw.
    inversion Hpw; subst. rewrite <- Forall_forall in Hr. cbn [readers progress_writes].
    split; [apply Forall_update_nth; assumption|].
    exists [p]. split; [reflexivity|left; split; [reflexivity|constructor; auto]].
Qed.

Lemma run_writes env evs ph s :
  Forall (Forall parsed_value) s.(readers) ->
  let r := run env evs ph s in
  exists ws, (snd r).(progress_writes) = s.(progress_writes) ++ ws /\
  ((is_done (fst r) = is_done ph /\ Forall parsed_value ws) \/
   (is_done ph = false /\ fst r = Done /\
    exists a b, ws = a ++ 0%Q :: b /\ Forall parsed_value a /\ Forall parsed_value b)).
Proof.
  revert ph s; induction evs as [|ev evs IH]; intros ph s Hr.
  - exists []. rewrite app_nil_r. split; [reflexivity|left; auto].
  - destruct (event_writes env ev ph s Hr) as (Hr1 & w & Hw & Hcase).
    assert (E : run env (ev :: evs) ph s =
                run env evs (fst (run env [ev] ph s)) (snd (run env [ev] ph s))).
    { destruct ev as [| |i]; cbn [run]; [destruct (worker_step env ph s)|..]; reflexivity. }
    cbv zeta. rewrite E.
    destruct (IH (fst (run env [ev] ph s)) _ Hr1) as (ws & Hws & Hcase2).
    exists (w ++ ws). rewrite Hws, Hw, app_assoc. split; [reflexivity|].
    destruct Hcase as [(Hd & Hp)|(Hd & Hph & ->)].
    + rewrite <- Hd. destruct Hcase2 as [(Hd2 & Hp2)|(Hd2 & Hph2 & a & b & -> & Ha & Hb)].
      * left. split; [exact Hd2|apply Forall_app; tauto].
      * right. split; [exact Hd2|split; [exact Hph2|]].
        exists (w ++ a), b. rewrite <- app_assoc. split; [reflexivity|split; [apply Forall_app; tauto|exact Hb]].
    + rewrite Hph in Hcase2 |- *. cbn [is_done] in Hcase2.
      destruct Hcase2 as [(Hd2 & Hp2)|(Hd2 & _)]; [|discriminate].
      right. split; [exact Hd|split; [apply is_done_true, Hd2|]].
      exists [], ws. split; [reflexivity|split; [constructor|exact Hp2]].
Qed.

(** C3 (amended): starting a run writes nothing to [progress].  Under any
    interleaving of the worker, the stop button and the stderr reader
    threads, every value written to [progress] is a value produced by the
    progress parser, except for exactly one [0] that the worker writes when
    its loop has ended: present when the worker has returned normally,
    absent while it runs or after it died on a panic.  Reader stores may
    follow that [0]. *)
Theorem progress_writes_parsed_or_final_zero env evs tasks s :
  Forall (Forall parsed_value) s.(readers) ->
  (snd (worker_step env (Spawned tasks) s)).(progress_writes) = s.(progress_writes) /\
  let r := run env evs (Spawned tasks) s in
  exists ws, (snd r).(progress_writes) = s.(progress_writes) ++ ws /\
  (fst r <> Done -> Forall parsed_value ws) /\
  (fst r = Done -> exists a b, ws = a ++ 0%Q :: b /\ Forall parsed_value a /\ Forall parsed_value b).
Proof.
  intros Hr. split; [reflexivity|].
  destruct (run_writes env evs (Spawned tasks) s Hr) as (ws & Hws & Hcase).
  exists ws. split; [exact Hws|].
  destruct Hcase as [(Hd & Hp)|(_ & Hph & Hab)].
  - split; [intros _; exact Hp|]. intros Hph. rewrite Hph in Hd. discriminate.
  - split; [intros Hne; contradiction|intros _; exact Hab].
Qed.

Lemma progress_writes_parsed_or_final_zero_witness :
  Forall (Forall parsed_value) initial_shared.(readers) /\
  (snd (worker_step Scenario.all_ok_env (Spawned [Scenario.task_named "a"]) initial_shared)).(progress_writes) = [] /\
  let r := run Scenario.all_ok_env [WorkerStep; WorkerStep; WorkerStep; WorkerStep; ReaderStep 0]
             (Spawned [Scenario.task_named "a"]) initial_shared in
  exists ws, (snd r).(progress_writes) = [] ++ ws /\
  (fst r <> Done -> Forall parsed_value ws) /\
  (fst r = Done -> exists a b, ws = a ++ 0%Q :: b /\ Forall parsed_value a /\ Forall parsed_value b).
Proof.
  split; [constructor|].
  exact (progress_writes_parsed_or_final_zero Scenario.all_ok_env
           [WorkerStep; WorkerStep; WorkerStep; WorkerStep; ReaderStep 0]
           [Scenario.task_named "a"] initial_shared (Forall_nil _)).
Defined.

(** C3 (counterexample): one task whose encoder reported
    [time=00:05:00.00]; its reader thread stores the parsed 3 after the
    worker has finished and reset [progress] to [0], so the completed run
    leaves [progress] at 3, outside [0, 1]. *)
Lemma progress_three_after_done :
  let r := run Scenario.all_ok_env [WorkerStep; WorkerStep; WorkerStep; WorkerStep; ReaderStep 0]
             (Spawned [Scenario.task_named "a"]) initial_shared in
  fst r = Done /\ (snd r).(progress_writes) = [0%Q; (snd r).(progress)] /\
  ((snd r).(progress) == 3)%Q /\ (1 < (snd r).(progress))%Q.
Proof. vm_compute. repeat split; reflexivity. Qed.

Lemma loop_skip_ok env pre rest k s :
  Forall (fun u => fst (process_task env u) = TOk) pre ->
  exists s', run env (repeat WorkerStep (List.length pre + k)) (Loop (pre ++ rest)) s =
             run env (repeat WorkerStep k) (Loop rest) s' /\
             s'.(invoked) = s.(invoked) ++ pre.
Proof.
  intros Hok. revert s; induction Hok as [|u pre Hu Hok IH]; intros s.
  - exists s. rewrite app_nil_r. split; reflexivity.
  - cbn [List.length Nat.add app]. rewrite run_worker_steps. cbn [worker_step].
    destruct (process_task env u) as [out ws] eqn:E. simpl in Hu. subst out. cbn beta iota.
    destruct (IH (spawn_reader ws (log_invocation u (set_message ("处理中: " ++ input_path u)%string s))))
      as (s' & Hrun & Hs').
    exists s'. split; [exact Hrun|].
    rewrite Hs'. simpl. rewrite <- app_assoc. reflexivity.
Qed.

Lemma finish_invoked m x :
  invoked (set_flag false (write_progress 0%Q (set_message m x))) = invoked x.
Proof. reflexivity. Qed.

Lemma finish_message m x :
  message (set_flag false (write_progress 0%Q (set_message m x))) = m.
Proof. reflexivity. Qed.

(** C1 (code_bug): when task [t] fails after the successful tasks [pre],
    no task of [post] is invoked, but the status left at the end of the
    run is ["处理完成"] ("done"), not the error text: the unconditional
    message after the loop overwrites it. *)
Theorem batch_error_stops_queue_status_overwritten env pre t post e s :
  Forall (fun u => fst (process_task env u) = TOk) pre ->
  fst (process_task env t) = TErr e ->
  let r := run_worker env (pre ++ t :: post) s in
  fst r = Done /\ (snd r).(invoked) = s.(invoked) ++ pre ++ [t] /\
  (snd r).(message) = "处理完成"%string.
Proof.
  intros Hok Herr. unfold run_worker.
  rewrite length_app. cbn [List.length].
  replace (List.length pre + S (List.length post) + 3)%nat
    with (S (List.length pre + S (S (S (List.length post))))) by lia.
  rewrite run_worker_steps. cbn [worker_step].
  destruct (loop_skip_ok env pre (t :: post) (S (S (S (List.length post)))) (set_flag true s) Hok)
    as (s' & -> & Hs').
  rewrite run_worker_steps. cbn [worker_step].
  destruct (process_task env t) as [out ws] eqn:E. simpl in Herr. subst out. cbn beta iota.
  rewrite run_worker_steps. cbn [worker_step]. rewrite run_done. cbn [fst snd].
  rewrite finish_invoked, finish_message. split; [reflexivity|split; [|reflexivity]].
  simpl. rewrite Hs'. simpl. rewrite <- app_assoc. reflexivity.
Qed.

(** The spec's scenario: three tasks, the second fails. *)
Lemma batch_error_stops_queue_status_overwritten_witness :
  let r := run_worker Scenario.second_fails_env Scenario.three_tasks initial_shared in
  fst r = Done /\
  (snd r).(invoked) = [Scenario.task_named "a"; Scenario.task_named "b"] /\
  (snd r).(message) = "处理完成"%string.
Proof.
  exact (batch_error_stops_queue_status_overwritten Scenario.second_fails_env
           [Scenario.task_named "a"] (Scenario.task_named "b") [Scenario.task_named "c"]
           "FFmpeg处理失败，退出码: Some(1)" initial_shared
           ltac:(repeat constructor) eq_refl).
Defined.

Lemma set_flag_same b c s1 s2 :
  same_but_flag s1 s2 -> same_but_flag (set_flag b s1) (set_flag c s2).
Proof. intros H. exact H. Qed.

Lemma set_message_same m s1 s2 :
  same_but_flag s1 s2 -> same_but_flag (set_message m s1) (set_message m s2).
Proof. intros (H1 & H2 & H3 & H4 & H5). unfold same_but_flag. simpl. tauto. Qed.

Lemma write_progress_same p s1 s2 :
  same_but_flag s1 s2 -> same_but_flag (write_progress p s1) (write_progress p s2).
Proof. intros (H1 & H2 & H3 & H4 & H5). unfold same_but_flag. simpl. rewrite H3. tauto. Qed.

Lemma log_invocation_same t s1 s2 :
  same_but_flag s1 s2 -> same_but_flag (log_invocation t s1) (log_invocation t s2).
Proof. intros (H1 & H2 & H3 & H4 & H5). unfold same_but_flag. simpl. rewrite H4. tauto. Qed.

Lemma spawn_reader_same ws s1 s2 :
  same_but_flag s1 s2 -> same_but_flag (spawn_reader ws s1) (spawn_reader ws s2).
Proof. intros (H1 & H2 & H3 & H4 & H5). unfold same_but_flag. simpl. rewrite H5. tauto. Qed.

Lemma reader_step_same i s1 s2 :
  same_but_flag s1 s2 -> same_but_flag (reader_step i s1) (reader_step i s2).
Proof.
  intros H. pose proof H as (H1 & H2 & H3 & H4 & H5). unfold reader_step. rewrite H5.
  destruct (nth_error (readers s2) i) as [[|p ws]|]; try exact H.
  unfold same_but_flag. simpl. rewrite H1, H3, H4. tauto.
Qed.

Lemma worker_step_same env ph s1 s2 :
  same_but_flag s1 s2 ->
  fst (worker_step env ph s1) = fst (worker_step env ph s2) /\
  same_but_flag (snd (worker_step env ph s1)) (snd (worker_step env ph s2)).
Proof.
  intros H.
  destruct ph as [tasks|[|t ts]| | |]; cbn [worker_step fst snd].
  - split; [reflexivity|apply set_flag_same, H].
  - split; [reflexivity|exact H].
  - destruct (process_task env t) as [out ws]. cbn beta iota.
    assert (Hs := spawn_reader_same ws _ _
                    (log_invocation_same t _ _
                       (set_message_same ("处理中: " ++ input_path t)%string _ _ H))).
    destruct out as [|e|]; cbn [fst snd]; split; try reflexivity; try exact Hs.
    apply set_message_same, Hs.
  - split; [reflexivity|].
    apply set_flag_same, write_progress_same, set_message_same, H.
  - split; [reflexivity|exact H].
  - split; [reflexivity|exact H].
Qed.

Lemma run_ignores_stops env evs ph s1 s2 :
  same_but_flag s1 s2 ->
  view (run env evs ph s1) = view (run env (filter not_stop evs) ph s2).
Proof.
  revert ph s1 s2; induction evs as [|[| |i] evs IH]; intros ph s1 s2 H.
  - destruct H as (H1 & H2 & H3 & H4 & H5). unfold view; simpl.
    rewrite H1, H2, H3, H4, H5. reflexivity.
  - cbn [run filter not_stop].
    destruct (worker_step_same env ph s1 s2 H) as [Hph Hs].
    destruct (worker_step env ph s1) as [ph1 t1], (worker_step env ph s2) as [ph2 t2].
    simpl in Hph, Hs. subst ph2. apply IH. exact Hs.
  - cbn [run filter not_stop]. apply IH. exact H.
  - cbn [run filter not_stop]. apply IH, reader_step_same, H.
Qed.

(** C2 (code_bug): a stop request only clears the shared flag, which the
    worker never reads (its loop has no check between tasks): under any
    interleaving of worker steps, reader stores and stop requests, the
    worker goes through the same phases, invokes the same tasks and writes
    the same messages and progress as with no stop request at all. *)
Theorem stop_requests_do_not_affect_worker env evs ph s :
  view (run env evs ph s) = view (run env (filter not_stop evs) ph s).
Proof.
  apply run_ignores_stops. unfold same_but_flag. tauto.
Qed.

(** The failing input: the stop request arrives after the first task, the
    flag is [false] at the top of the loop, and the second task is invoked
    anyway, exactly as without the stop. *)
Lemma stop_requests_do_not_affect_worker_witness :
  let evs := [WorkerStep; WorkerStep; StopRequest; WorkerStep] in
  let before := run Scenario.all_ok_env [WorkerStep; WorkerStep; StopRequest]
                  (Spawned Scenario.three_tasks) initial_shared in
  let after := run Scenario.all_ok_env evs (Spawned Scenario.three_tasks) initial_shared in
  (snd before).(processing_flag) = false /\
  fst before = Loop [Scenario.task_named "b"; Scenario.task_named "c"] /\
  (snd after).(invoked) = [Scenario.task_named "a"; Scenario.task_named "b"] /\
  view after = view (run Scenario.all_ok_env (filter not_stop evs) (Spawned Scenario.three_tasks) initial_shared).
Proof.
  split; [vm_compute; reflexivity|].
  split; [vm_compute; reflexivity|].
  split; [vm_compute; reflexivity|].
  exact (stop_requests_do_not_affect_worker Scenario.all_ok_env
           [WorkerStep; WorkerStep; StopRequest; WorkerStep]
           (Spawned Scenario.three_tasks) initial_shared).
Defined.

End BatchFacts.
Module PreviewFacts.
Import Preview.

Lemma join_keeps_fields vp :
  let vp' := join_preview_thread vp in
  vp'.(source_paths) = vp.(source_paths) /\ vp'.(rotation) = vp.(rotation) /\
  (forall b, target_time b vp' = target_time b vp) /\
  (forall b, target_loading b vp' = target_loading b vp) /\
  (forall b, target_texture b vp' = target_texture b vp) /\
  vp'.(last_preview_request_time) = vp.(last_preview_request_time) /\
  vp'.(spawned) = vp.(spawned).
Proof.
  unfold join_preview_thread, worker_finish.
  destruct (preview_thread vp) as [[[] r []]|]; simpl;
    repeat split; intros []; reflexivity.
Qed.

Lemma worker_finish_texture b x : target_texture b (worker_finish x) = target_texture b x.
Proof.
  unfold worker_finish. destruct (preview_thread x) as [[[] r []]|]; destruct b; reflexivity.
Qed.

Lemma drain_keeps_stuck env b vp :
  target_loading b vp = true -> target_frame b vp = None ->
  target_loading b (preview_drain env vp) = true /\
  target_frame b (preview_drain env vp) = None /\
  target_texture b (preview_drain env vp) = target_texture b vp.
Proof.
  unfold preview_drain, drain_start, drain_end, target_loading, target_frame, target_texture.
  destruct b; intros Hl Hf.
  - rewrite Hf. destruct (current_end_preview_frame vp); simpl; tauto.
  - destruct (current_start_preview_frame vp); simpl; rewrite Hf; simpl; tauto.
Qed.

Lemma generate_preview_loading_drop env now b vp :
  target_loading b vp = true -> generate_preview env now b vp = vp.
Proof.
  unfold generate_preview, target_loading. intros H.
  destruct b; rewrite H; simpl; rewrite ?orb_true_r; reflexivity.
Qed.

(** C6 (code_bug): when the extraction for an accepted request yields no
    frame, the worker stores [None]; the drain only clears [loading] when it
    finds a frame, so after any number of UI frames the target is still
    [loading], its previous preview is kept, and every later request for
    that target is dropped by the [loading] guard. *)
Theorem preview_missing_frame_keeps_loading env vp now b :
  preview_accepts vp now b = true ->
  env.(extract_frame) (first_source vp) (target_time b vp) vp.(rotation) = None ->
  forall n,
    let vpn := Nat.iter n (preview_drain env) (worker_finish (generate_preview env now b vp)) in
    target_loading b vpn = true /\ target_texture b vpn = target_texture b vp /\
    forall now', generate_preview env now' b vpn = vpn.
Proof.
  intros Hacc Hnone n.
  unfold preview_accepts in Hacc.
  apply andb_true_iff in Hacc as [Hacc Hdeb]. apply andb_true_iff in Hacc as [Hsrc Hld].
  apply negb_true_iff in Hsrc, Hld, Hdeb.
  set (vp1 := {| source_paths := source_paths vp; rotation := rotation vp;
                 start_preview_time := start_preview_time vp; end_preview_time := end_preview_time vp;
                 start_preview_loading := start_preview_loading vp;
                 end_preview_loading := end_preview_loading vp;
                 start_preview_texture := start_preview_texture vp;
                 end_preview_texture := end_preview_texture vp;
                 current_start_preview_frame := current_start_preview_frame vp;
                 current_end_preview_frame := current_end_preview_frame vp;
                 last_preview_request_time := now;
                 preview_thread := preview_thread vp; spawned := spawned vp |}).
  destruct (join_keeps_fields vp1) as (Js & Jr & Jt & Jl & Jx & _).
  assert (Hvp : generate_preview env now b vp =
    let vp2 := join_preview_thread vp1 in
    let input_path := match vp2.(source_paths) with p :: _ => p | [] => ""%string end in
    let time := if b then vp2.(start_preview_time) else vp2.(end_preview_time) in
    let job := {| job_is_start := b;
                  job_result := env.(extract_frame) input_path time vp2.(rotation);
                  job_finished := false |} in
    {| source_paths := vp2.(source_paths); rotation := vp2.(rotation);
       start_preview_time := vp2.(start_preview_time); end_preview_time := vp2.(end_preview_time);
       start_preview_loading := if b then true else vp2.(start_preview_loading);
       end_preview_loading := if b then vp2.(end_preview_loading) else true;
       start_preview_texture := vp2.(start_preview_texture);
       end_preview_texture := vp2.(end_preview_texture);
       current_start_preview_frame := vp2.(current_start_preview_frame);
       current_end_preview_frame := vp2.(current_end_preview_frame);
       last_preview_request_time := vp2.(last_preview_request_time);
       preview_thread := Some job; spawned := vp2.(spawned) ++ [(b, time)] |}).
  { unfold generate_preview. fold vp1.
    destruct (source_paths vp); [discriminate|].
    destruct b; simpl in Hld; rewrite Hld; simpl; rewrite Hdeb; reflexivity. }
  rewrite Hvp. clear Hvp.
  set (vp2 := join_preview_thread vp1) in *.
  assert (Hin : env.(extract_frame) (match vp2.(source_paths) with p :: _ => p | [] => ""%string end)
                  (if b then vp2.(start_preview_time) else vp2.(end_preview_time)) vp2.(rotation) = None).
  { rewrite Js, Jr. pose proof (Jt b) as Jtb. unfold target_time in Jtb.
    destruct b; rewrite Jtb; exact Hnone. }
  cbv zeta. rewrite Hin.
  set (v0 := worker_finish _).
  assert (H0 : target_loading b v0 = true /\ target_frame b v0 = None /\
               target_texture b v0 = target_texture b vp).
  { destruct b; unfold v0, worker_finish at 1; simpl; repeat split;
      first [exact (worker_finish_texture true vp1) | exact (worker_finish_texture false vp1)]. }
  assert (Hn : target_loading b (Nat.iter n (preview_drain env) v0) = true /\
               target_frame b (Nat.iter n (preview_drain env) v0) = None /\
               target_texture b (Nat.iter n (preview_drain env) v0) = target_texture b vp).
  { induction n as [|n IH]; [exact H0|].
    destruct IH as (I1 & I2 & I3). simpl.
    destruct (drain_keeps_stuck env b _ I1 I2) as (K1 & K2 & K3).
    rewrite K1, K2, K3, I3. repeat split. }
  destruct Hn as (N1 & _ & N3).
  split; [exact N1|split; [exact N3|]].
  intros now'. apply generate_preview_loading_drop, N1.
Qed.

(** The spec's failing case: the end-time preview of a timestamp beyond
    the end of the video. *)
Lemma preview_missing_frame_keeps_loading_witness :
  let vpn := Nat.iter 5 (preview_drain PreviewScenario.short_video_env)
               (worker_finish (generate_preview PreviewScenario.short_video_env 1 false
                                 PreviewScenario.fresh_vp)) in
  target_loading false vpn = true /\
  target_texture false vpn = target_texture false PreviewScenario.fresh_vp /\
  forall now', generate_preview PreviewScenario.short_video_env now' false vpn = vpn.
Proof.
  exact (preview_missing_frame_keeps_loading PreviewScenario.short_video_env
           PreviewScenario.fresh_vp 1 false eq_refl eq_refl 5).
Defined.

Lemma generate_preview_rejected env vp now b :
  preview_accepts vp now b = false -> generate_preview env now b vp = vp.
Proof.
  unfold preview_accepts, generate_preview.
  destruct (source_paths vp); [reflexivity|].
  destruct b; simpl;
    [destruct (start_preview_loading vp)|destruct (end_preview_loading vp)]; simpl;
    try reflexivity;
    destruct (qlt (now - last_preview_request_time vp) (1 # 2)); simpl;
    intros H; first [reflexivity|discriminate].
Qed.

Lemma generate_preview_accepted env vp now b :
  preview_accepts vp now b = true ->
  let vp' := generate_preview env now b vp in
  vp'.(spawned) = vp.(spawned) ++ [(b, target_time b vp)] /\
  vp'.(last_preview_request_time) = now /\
  target_loading b vp' = true.
Proof.
  intros Hacc.
  unfold preview_accepts in Hacc.
  apply andb_true_iff in Hacc as [Hacc Hdeb]. apply andb_true_iff in Hacc as [Hsrc Hld].
  apply negb_true_iff in Hsrc, Hld, Hdeb.
  unfold generate_preview.
  replace ((match source_paths vp with [] => true | _ :: _ => false end)
           || (b && start_preview_loading vp) || (negb b && end_preview_loading vp)) with false
    by (destruct (source_paths vp); [discriminate|]; destruct b; simpl in Hld |- *; now rewrite Hld).
  rewrite Hdeb.
  match goal with |- context [join_preview_thread ?v] => set (vp1 := v) end.
  destruct (join_keeps_fields vp1) as (Js & Jr & Jt & Jl & Jx & Jlast & Jsp).
  cbn zeta. cbn [spawned last_preview_request_time].
  rewrite Jsp, Jlast. split; [|split; [reflexivity|]].
  - f_equal. f_equal. pose proof (Jt b) as Jtb. unfold target_time in Jtb |- *.
    destruct b; rewrite Jtb; reflexivity.
  - unfold target_loading. destruct b; reflexivity.
Qed.

Lemma generate_preview_debounced env vp now b :
  qlt (now - vp.(last_preview_request_time)) (1 # 2) = true -> generate_preview env now b vp = vp.
Proof.
  intros H. unfold generate_preview. rewrite H.
  destruct (_ || _ || _); reflexivity.
Qed.

(** C7 (amended): a request is dropped with no side effect unless a source
    is selected, its target is not loading, and at least 500ms have passed
    since the last accepted request; that timestamp is one field shared by
    both targets, so after an accepted request every request within 500ms,
    to either target, is dropped. *)
Theorem preview_debounce_shared env vp now b :
  (preview_accepts vp now b = false -> generate_preview env now b vp = vp) /\
  (preview_accepts vp now b = true ->
   let vp' := generate_preview env now b vp in
   vp'.(spawned) = vp.(spawned) ++ [(b, target_time b vp)] /\
   forall now2 b2, qlt (now2 - now) (1 # 2) = true ->
     generate_preview env now2 b2 vp' = vp').
Proof.
  split; [apply generate_preview_rejected|].
  intros Hacc. destruct (generate_preview_accepted env vp now b Hacc) as (H1 & H2 & _).
  split; [exact H1|].
  intros now2 b2 Hq. apply generate_preview_debounced. rewrite H2. exact Hq.
Qed.

Lemma preview_debounce_shared_witness :
  let vp1 := generate_preview PreviewScenario.short_video_env 1 true PreviewScenario.fresh_vp in
  vp1.(spawned) = [(true, "0:00:10"%string)] /\
  generate_preview PreviewScenario.short_video_env (6 # 5) false vp1 = vp1.
Proof.
  destruct (proj2 (preview_debounce_shared PreviewScenario.short_video_env
                     PreviewScenario.fresh_vp 1 true) eq_refl) as [H1 H2].
  split; [exact H1|]. apply H2. vm_compute. reflexivity.
Defined.

(** C7 (counterexample): a start-time request at 1.0s is accepted; an
    end-time request at 1.2s, for a target that had no request, no worker
    and a selected source, is dropped: the targets are not debounced
    independently. *)
Lemma end_request_dropped_by_start_debounce :
  let vp1 := generate_preview PreviewScenario.short_video_env 1 true PreviewScenario.fresh_vp in
  let vp2 := generate_preview PreviewScenario.short_video_env (6 # 5) false vp1 in
  vp1.(end_preview_loading) = false /\ vp1.(source_paths) <> [] /\
  PreviewScenario.fresh_vp.(spawned) = [] /\
  vp2.(spawned) = [(true, "0:00:10"%string)] /\ vp2 = vp1.
Proof. vm_compute. split; [reflexivity|split; [discriminate|repeat split]]. Qed.

End PreviewFacts.

Module DurationFacts.
Import Duration Time.

Lemma pad2_check :
  forallb (fun n => String.eqb (pad2 n) (two_digits n)) (map Z.of_nat (seq 0 100)) = true.
Proof. vm_compute. reflexivity. Qed.

Lemma pad2_two_digits n : 0 <= n <= 99 -> pad2 n = two_digits n.
Proof.
  intros Hn. pose proof pad2_check as H. rewrite forallb_forall in H.
  apply String.eqb_eq, H, in_map_iff. exists (Z.to_nat n). split; [lia|].
  apply in_seq. lia.
Qed.

Lemma f64_as_u64_day x : (0 <= x < 86400)%Q -> f64_as_u64 x = Qfloor x /\ 0 <= Qfloor x < 86400.
Proof.
  intros [H0 H1].
  pose proof (Qfloor_le x) as Hle. pose proof (Qlt_floor x) as Hlt.
  assert (Hlo : 0 <= Qfloor x).
  { apply Z.lt_succ_r. unfold Z.succ. rewrite Zlt_Qlt.
    eapply Qle_lt_trans; [exact H0|exact Hlt]. }
  assert (Hhi : Qfloor x < 86400).
  { rewrite Zlt_Qlt. eapply Qle_lt_trans; [exact Hle|exact H1]. }
  split; [|lia].
  unfold f64_as_u64. destruct (Qle_bool x 0) eqn:E.
  - apply Qle_bool_iff in E.
    assert (Qfloor x <= 0) by (rewrite Zle_Qle; eapply Qle_trans; [exact Hle|exact E]). lia.
  - unfold u64_max. lia.
Qed.

Lemma format_duration_day x :
  (0 <= x < 86400)%Q ->
  let t := Qfloor x in
  format_duration x = hms (t / 3600) ((t mod 3600) / 60) ((t mod 3600) mod 60) /\
  0 <= t / 3600 <= 23 /\ 0 <= (t mod 3600) / 60 <= 59 /\ 0 <= (t mod 3600) mod 60 <= 59.
Proof.
  intros Hx t. destruct (f64_as_u64_day x Hx) as [E Ht]. fold t in E, Ht.
  assert (Hh : 0 <= t / 3600 <= 23).
  { split; [apply Z.div_pos; lia|]. apply Z.lt_succ_r, Z.div_lt_upper_bound; lia. }
  pose proof (Z.mod_pos_bound t 3600 ltac:(lia)) as Hr.
  assert (Hm : 0 <= (t mod 3600) / 60 <= 59).
  { split; [apply Z.div_pos; lia|]. apply Z.lt_succ_r, Z.div_lt_upper_bound; lia. }
  pose proof (Z.mod_pos_bound (t mod 3600) 60 ltac:(lia)) as Hs.
  split; [|split; [exact Hh|split; [exact Hm|lia]]].
  unfold format_duration. rewrite E.
  rewrite !pad2_two_digits by lia. reflexivity.
Qed.

(** X1: the duration label of a video shorter than a day reads back, with
    [NaiveTime::from_str], as the whole seconds of the duration; a
    duration of zero or less is shown as [00:00:00]. *)
Theorem format_duration_roundtrip :
  (forall x, (0 <= x < 86400)%Q -> naive_time_from_str (format_duration x) = Some (Qfloor x, 0)) /\
  (forall x, (x <= 0)%Q -> format_duration x = "00:00:00"%string).
Proof.
  split.
  - intros x Hx. destruct (format_duration_day x Hx) as (E & Hh & Hm & Hs).
    rewrite E, TimeFacts.naive_time_from_str_hms by assumption.
    pose proof (Z.div_mod (Qfloor x) 3600 ltac:(lia)).
    pose proof (Z.div_mod (Qfloor x mod 3600) 60 ltac:(lia)).
    f_equal. f_equal. lia.
  - intros x Hx. unfold format_duration, f64_as_u64.
    replace (Qle_bool x 0) with true by (symmetry; apply Qle_bool_iff; exact Hx).
    reflexivity.
Qed.

Lemma format_duration_roundtrip_witness :
  naive_time_from_str (format_duration (37257 # 10)) = Some (3725, 0) /\
  format_duration (-3)%Q = "00:00:00"%string.
Proof.
  split.
  - exact (proj1 format_duration_roundtrip (37257 # 10) ltac:(split; vm_compute; first [reflexivity | discriminate])).
  - exact (proj2 format_duration_roundtrip (-3)%Q ltac:(vm_compute; discriminate)).
Defined.

End DurationFacts.

Module OutputPathFacts.
Import Sanitize SanitizeFacts OutputPath.

(** Paths *)

Lemma split_sep_cons s : exists q body, split_sep s = q :: body.
Proof.
  induction s as [|c r [q [body IH]]]; simpl; [eauto|].
  rewrite IH. destruct (c =? slash); eauto.
Qed.

Lemma split_sep_no_slash s : ~ In slash s -> split_sep s = [s].
Proof.
  induction s as [|c r IH]; simpl; intros Hn; [reflexivity|].
  rewrite IH by tauto. destruct (Z.eqb_spec c slash); [subst; tauto|reflexivity].
Qed.

Lemma split_sep_app x n : split_sep (x ++ slash :: n) = split_sep x ++ split_sep n.
Proof.
  induction x as [|c x IH]; simpl; [reflexivity|].
  rewrite IH. destruct (c =? slash); [reflexivity|].
  destruct (split_sep_cons x) as (q & body & E). rewrite E. reflexivity.
Qed.

Lemma split_sep_pieces s q : In q (split_sep s) -> ~ In slash q.
Proof.
  revert q; induction s as [|c r IH]; simpl; intros q Hq.
  - destruct Hq as [<-|[]]. simpl; tauto.
  - destruct (Z.eqb_spec c slash) as [->|Hc].
    + destruct Hq as [<-|Hq]; [simpl; tauto|exact (IH _ Hq)].
    + destruct (split_sep_cons r) as (q0 & body & E). rewrite E in IH, Hq.
      destruct Hq as [<-|Hq].
      * intros [Hs|Hs]; [congruence|]. exact (IH q0 ltac:(left; reflexivity) Hs).
      * exact (IH q (or_intror Hq)).
Qed.

Lemma last_in {A} (l : list A) d : l <> [] -> In (last l d) l.
Proof.
  destruct l as [|a l] using rev_ind; [congruence|]. intros _.
  rewrite last_last. apply in_or_app. right; left; reflexivity.
Qed.


Lemma body_component_in q n :
  In (Normal n) (body_component q) -> q = n /\ is_cur q = false /\ q <> dotdot.
Proof.
  unfold body_component. destruct (is_cur q) eqn:Ec; [intros []|].
  destruct (list_eq_dec Z.eq_dec q dotdot) as [E|E]; intros [H|[]]; [discriminate|].
  injection H as ->. tauto.
Qed.

Lemma is_cur_false q : is_cur q = false -> q <> [] /\ q <> [dot].
Proof.
  intros H; split; intros ->; compute in H; discriminate.
Qed.

Lemma flat_map_normal ps n :
  In (Normal n) (flat_map body_component ps) -> exists q, In q ps /\ q = n /\ is_cur q = false /\ q <> dotdot.
Proof.
  intros H. apply in_flat_map in H as [q [Hq Hn]]. exists q. split; [exact Hq|].
  exact (body_component_in q n Hn).
Qed.

Lemma components_normal p n : In (Normal n) (components p) -> normal_name n.
Proof.
  unfold components. intros H.
  assert (exists q, In q (split_sep p) /\ q = n /\ is_cur q = false /\ q <> dotdot) as (q & Hq & <- & Hc & Hd).
  { destruct p as [|c r]; [destruct H|].
    destruct (split_sep (c :: r)) as [|q0 body] eqn:E; [destruct H|].
    destruct (c =? slash).
    - destruct H as [H|H]; [discriminate|].
      destruct (flat_map_normal _ _ H) as (q & Hq & R). exists q. split; [right; exact Hq|exact R].
    - destruct (list_eq_dec Z.eq_dec q0 [dot]).
      + destruct H as [H|H]; [discriminate|].
        destruct (flat_map_normal _ _ H) as (q & Hq & R). exists q. split; [right; exact Hq|exact R].
      + exact (flat_map_normal _ _ H). }
  destruct (is_cur_false q Hc). repeat split; try assumption.
  exact (split_sep_pieces p q Hq).
Qed.

Lemma file_name_normal p n : path_file_name p = Some n -> normal_name n /\ In (Normal n) (components p).
Proof.
  unfold path_file_name. destruct (components p) as [|c cs] eqn:E; [discriminate|].
  assert (Hin := last_in (c :: cs) RootDir ltac:(discriminate)).
  destruct (last (c :: cs) RootDir) as [| | |s]; try discriminate.
  intros H; injection H as <-. split; [|exact Hin].
  apply (components_normal p). rewrite E. exact Hin.
Qed.

Lemma body_component_normal n : normal_name n -> body_component n = [Normal n].
Proof.
  intros (H1 & H2 & H3 & H4). unfold body_component.
  replace (is_cur n) with false.
  - destruct (list_eq_dec Z.eq_dec n dotdot); [contradiction|reflexivity].
  - destruct n as [|c [|d r]]; simpl; [contradiction| |reflexivity].
    destruct (Z.eqb_spec c dot); [subst; contradiction|reflexivity].
Qed.

Lemma split_sep_slash n : split_sep (slash :: n) = [] :: split_sep n.
Proof. reflexivity. Qed.

Lemma components_app_normal x n :
  normal_name n -> last (components (x ++ slash :: n)) RootDir = Normal n.
Proof.
  intros Hn. pose proof Hn as (_ & Hs & _ & _).
  unfold components. destruct x as [|c x]; cbn [app].
  - rewrite split_sep_slash, (split_sep_no_slash n Hs), Z.eqb_refl.
    cbn [flat_map]. rewrite (body_component_normal n Hn). reflexivity.
  - replace (split_sep (c :: x ++ slash :: n)) with (split_sep (c :: x) ++ split_sep n)
      by (symmetry; exact (split_sep_app (c :: x) n)).
    rewrite (split_sep_no_slash n Hs).
    destruct (split_sep_cons (c :: x)) as (q & body & E). rewrite E. cbn [app].
    destruct (c =? slash); [|destruct (list_eq_dec Z.eq_dec q [dot])].
    + rewrite flat_map_app. cbn [flat_map]. rewrite (body_component_normal n Hn).
      rewrite app_nil_r, app_comm_cons. apply last_last.
    + rewrite flat_map_app. cbn [flat_map]. rewrite (body_component_normal n Hn).
      rewrite app_nil_r, app_comm_cons. apply last_last.
    + change (q :: body ++ [n]) with ((q :: body) ++ [n]).
      rewrite flat_map_app. cbn [flat_map]. rewrite (body_component_normal n Hn).
      rewrite app_nil_r. apply last_last.
Qed.

Lemma file_name_push base n : normal_name n -> path_file_name (path_push base n) = Some n.
Proof.
  intros Hn. pose proof Hn as (Hne & Hs & Hd & Hdd).
  unfold path_push.
  replace (match n with c :: _ => c =? slash | [] => false end) with false
    by (destruct n as [|c r]; [contradiction|]; destruct (Z.eqb_spec c slash); [subst; simpl in Hs; tauto|reflexivity]).
  unfold path_file_name.
  destruct (need_sep base) eqn:Ens.
  - rewrite components_app_normal by exact Hn. reflexivity.
  - unfold need_sep in Ens. destruct (rev base) as [|c r] eqn:Er.
    + apply (f_equal (@rev Z)) in Er. rewrite rev_involutive in Er. subst base. simpl.
      unfold components. destruct n as [|c r]; [contradiction|].
      rewrite (split_sep_no_slash _ Hs).
      replace (c =? slash) with false by (symmetry; apply Z.eqb_neq; intros ->; apply Hs; left; reflexivity).
      destruct (list_eq_dec Z.eq_dec (c :: r) [dot]); [contradiction|].
      simpl. rewrite (body_component_normal _ Hn). reflexivity.
    + apply negb_false_iff, Z.eqb_eq in Ens. subst c.
      apply (f_equal (@rev Z)) in Er. rewrite rev_involutive in Er. subst base. simpl.
      rewrite <- app_assoc. simpl. rewrite components_app_normal by exact Hn. reflexivity.
Qed.

Lemma path_eqb_file_name p q : path_eqb p q = true -> path_file_name p = path_file_name q.
Proof.
  unfold path_eqb, path_file_name.
  destruct (list_eq_dec component_eq_dec (components p) (components q)) as [E|]; [|discriminate].
  rewrite E. reflexivity.
Qed.

Lemma path_push_suffix base f : exists pre, path_push base f = pre ++ f.
Proof.
  unfold path_push. destruct (match f with c :: _ => c =? slash | [] => false end).
  - exists []. reflexivity.
  - destruct (need_sep base); [exists (base ++ [slash]); rewrite <- app_assoc; reflexivity|exists base; reflexivity].
Qed.

(** Sanitized names *)

Lemma sanitize_chars x c : In c (sanitize_filename x) -> In c x \/ c = dot.
Proof.
  destruct (sanitize_shape x) as (stem & ext & Heq & _ & _ & Is & Ie).
  rewrite Heq. intros Hc.
  assert (In c stem \/ c = dot \/ In c ext) as [H|[H|H]].
  { destruct ext; [tauto|]. apply in_app_or in Hc as [Hc|[<-|Hc]]; tauto. }
  - left. apply Is, filter_In in H. tauto.
  - right; exact H.
  - left. apply Ie, filter_In in H. tauto.
Qed.

Lemma sanitize_allowed x : Forall (fun c => allowed c = true) (sanitize_filename x).
Proof.
  destruct (sanitize_shape x) as (stem & ext & Heq & _ & _ & Is & Ie).
  rewrite Heq, Forall_forall. intros c Hc.
  destruct ext as [|e ext'].
  - apply (regex_strip_allowed x), Is, Hc.
  - apply in_app_or in Hc as [Hc|[<-|Hc]].
    + apply (regex_strip_allowed x), Is, Hc.
    + reflexivity.
    + apply (regex_strip_allowed x), Ie, Hc.
Qed.

Lemma app_cons_unique (d : Z) a b x y :
  ~ In d x -> ~ In d y -> x ++ d :: y = a ++ d :: b -> ~ In d a /\ ~ In d b.
Proof.
  revert a; induction x as [|c x IH]; intros a Hx Hy E; destruct a as [|c' a]; simpl in E.
  - injection E as ->. simpl; tauto.
  - injection E as -> E. exfalso. apply Hy. rewrite E. apply in_or_app. right; left; reflexivity.
  - injection E as -> E. exfalso. apply Hx. left; reflexivity.
  - injection E as -> E. destruct (IH a ltac:(simpl in Hx; tauto) Hy E) as [Ha Hb].
    split; [|exact Hb]. intros [->|H]; [apply Hx; left; reflexivity|exact (Ha H)].
Qed.

Lemma sanitize_one_dot x a b :
  sanitize_filename x = a ++ dot :: b -> ~ In dot a /\ ~ In dot b.
Proof.
  destruct (sanitize_shape x) as (stem & ext & Heq & Hs & He & _ & _).
  rewrite Heq. destruct ext as [|e ext'].
  - intros E. exfalso. apply Hs. rewrite E. apply in_or_app. right; left; reflexivity.
  - apply app_cons_unique; assumption.
Qed.

Lemma sanitize_normal x :
  sanitize_filename x <> [] -> ~ In slash x -> normal_name (sanitize_filename x).
Proof.
  intros Hne Hx. split; [exact Hne|split; [|split]].
  - intros H. destruct (sanitize_chars x slash H) as [H'|H']; [exact (Hx H')|discriminate].
  - intros E. destruct (sanitize_shape x) as (stem & ext & Heq & Hs & _ & _ & _).
    rewrite Heq in E. destruct ext as [|e ext'].
    + apply Hs. rewrite E. left; reflexivity.
    + apply (f_equal (@List.length Z)) in E. rewrite !length_app in E. simpl in E. lia.
  - intros E. apply (sanitize_one_dot x [] [dot]) in E as [_ E]. apply E. left; reflexivity.
Qed.

(** [with_file_name p ""] removes the last component *)

Lemma split_sep_join ps :
  ps <> [] -> Forall noslash ps -> split_sep (join_sep ps) = ps.
Proof.
  induction ps as [|p ps IH]; intros Hne Hs; [congruence|].
  inversion Hs as [|? ? Hp Hps]; subst.
  destruct ps as [|p2 ps].
  - apply split_sep_no_slash, Hp.
  - change (join_sep (p :: p2 :: ps)) with (p ++ slash :: join_sep (p2 :: ps)).
    rewrite split_sep_app, split_sep_no_slash by exact Hp.
    rewrite IH by (discriminate || exact Hps). reflexivity.
Qed.

Lemma flat_map_split_join ps :
  Forall noslash ps ->
  flat_map body_component (split_sep (join_sep ps)) = flat_map body_component ps.
Proof.
  intros Hs. destruct ps as [|p ps]; [reflexivity|].
  rewrite split_sep_join by (discriminate || exact Hs). reflexivity.
Qed.

Lemma flat_map_drop_cur l :
  flat_map body_component (drop_cur l) = flat_map body_component l.
Proof.
  induction l as [|p l IH]; [reflexivity|]. simpl.
  destruct (is_cur p) eqn:E; [|reflexivity].
  rewrite IH. unfold body_component at 2. rewrite E. reflexivity.
Qed.

Lemma comp_count_app a b : comp_count (a ++ b) = (comp_count a + comp_count b)%nat.
Proof. unfold comp_count. rewrite flat_map_app, length_app. reflexivity. Qed.

Lemma comp_count_rev l : comp_count (rev l) = comp_count l.
Proof.
  induction l as [|p l IH]; [reflexivity|]. simpl rev.
  rewrite comp_count_app, IH. unfold comp_count. cbn [flat_map]. rewrite app_nil_r, !length_app. lia.
Qed.

Lemma comp_count_trim l : comp_count (trim_cur_back l) = comp_count l.
Proof.
  unfold trim_cur_back. rewrite comp_count_rev. unfold comp_count.
  rewrite flat_map_drop_cur. fold (comp_count (rev l)). apply comp_count_rev.
Qed.

Lemma drop_cur_head l x l' : drop_cur l = x :: l' -> is_cur x = false.
Proof.
  induction l as [|p l IH]; simpl; [discriminate|].
  destruct (is_cur p) eqn:E; [exact IH|]. intros H; injection H as -> _. exact E.
Qed.

Lemma body_component_length p : is_cur p = false -> List.length (body_component p) = 1%nat.
Proof.
  intros E. unfold body_component. rewrite E.
  destruct (list_eq_dec Z.eq_dec p dotdot); reflexivity.
Qed.

(** [strip] of [pop_normal] drops exactly one component. *)
Lemma comp_count_strip l :
  (0 < comp_count l)%nat ->
  S (comp_count (trim_cur_back (removelast (trim_cur_back l)))) = comp_count l.
Proof.
  intros Hl. rewrite comp_count_trim. rewrite <- (comp_count_trim l) in Hl |- *.
  unfold trim_cur_back in *.
  destruct (drop_cur (rev l)) as [|x k] eqn:E; [unfold comp_count in Hl; simpl in Hl; lia|].
  pose proof (drop_cur_head _ _ _ E) as Hx.
  simpl rev. rewrite removelast_last, comp_count_app.
  unfold comp_count at 3. simpl. rewrite app_nil_r, body_component_length by exact Hx. lia.
Qed.

Lemma in_strip l x : In x (trim_cur_back (removelast (trim_cur_back l))) -> In x l.
Proof.
  assert (Hd : forall k y, In y (drop_cur k) -> In y k).
  { induction k as [|p k IH]; simpl; [tauto|]. destruct (is_cur p); [intros y Hy; right; apply IH, Hy|tauto]. }
  assert (Ht : forall k y, In y (trim_cur_back k) -> In y k).
  { intros k y H. unfold trim_cur_back in H. apply in_rev, Hd in H. apply in_rev, H. }
  assert (Hr : forall (k : list ustring) y, In y (removelast k) -> In y k).
  { intros k y H. destruct k as [|a k] using rev_ind; [destruct H|].
    rewrite removelast_last in H. apply in_or_app. left; exact H. }
  intros H. apply Ht, Hr, Ht, H.
Qed.

Lemma strip_prefix_of l :
  exists k, l = trim_cur_back (removelast (trim_cur_back l)) ++ k.
Proof.
  assert (Ht : forall k, exists m, k = trim_cur_back k ++ m).
  { intros k. unfold trim_cur_back.
    assert (Hd : forall j, exists m, j = m ++ drop_cur j).
    { induction j as [|p j [m IH]]; [exists []; reflexivity|]. simpl.
      destruct (is_cur p); [exists (p :: m); simpl; f_equal; exact IH|exists []; reflexivity]. }
    destruct (Hd (rev k)) as [m Hm]. exists (rev m).
    rewrite <- rev_app_distr, <- Hm, rev_involutive. reflexivity. }
  assert (Hr : forall k : list ustring, exists m, k = removelast k ++ m).
  { intros k. destruct k as [|a k] using rev_ind; [exists []; reflexivity|].
    exists [a]. rewrite removelast_last. reflexivity. }
  destruct (Ht l) as [m1 H1]. destruct (Hr (trim_cur_back l)) as [m2 H2].
  destruct (Ht (removelast (trim_cur_back l))) as [m3 H3].
  exists (m3 ++ m2 ++ m1). rewrite app_assoc, app_assoc, <- H3, <- H2, <- H1. reflexivity.
Qed.

Lemma components_unfold p c r q body :
  p = c :: r -> split_sep p = q :: body ->
  components p =
  if c =? slash then RootDir :: flat_map body_component body
  else if list_eq_dec Z.eq_dec q [dot] then CurDir :: flat_map body_component body
  else flat_map body_component (q :: body).
Proof. intros -> E. unfold components. rewrite E. reflexivity. Qed.

Lemma components_push_nil base : components (path_push base []) = components base.
Proof.
  unfold path_push. cbn iota.
  destruct (need_sep base) eqn:En; [|rewrite app_nil_r; reflexivity].
  destruct base as [|c r]; [discriminate|].
  destruct (split_sep_cons (c :: r)) as (q & body & E).
  assert (E2 : split_sep ((c :: r) ++ [slash]) = q :: (body ++ [[]])).
  { rewrite split_sep_app, E. reflexivity. }
  cbn [app] in E2 |- *.
  rewrite (components_unfold _ c (r ++ [slash]) q (body ++ [[]]) eq_refl E2).
  rewrite (components_unfold _ c r q body eq_refl E).
  cbn [flat_map]. rewrite !flat_map_app. cbn [flat_map body_component is_cur]. rewrite !app_nil_r.
  reflexivity.
Qed.

Lemma split_sep_head c r q body :
  c <> slash -> split_sep (c :: r) = q :: body -> exists q', q = c :: q'.
Proof.
  intros Hc E. simpl in E. destruct (Z.eqb_spec c slash); [contradiction|].
  destruct (split_sep r) as [|p ps]; injection E as <- _; eauto.
Qed.

Lemma join_sep_head q xs : exists t, join_sep (q :: xs) = q ++ t.
Proof.
  destruct xs as [|x xs]; [exists []; simpl; rewrite app_nil_r; reflexivity|].
  exists (slash :: join_sep (x :: xs)). reflexivity.
Qed.

Lemma comp_count_pos l : flat_map body_component l <> [] -> (0 < comp_count l)%nat.
Proof. unfold comp_count. destruct (flat_map body_component l); [congruence|simpl; lia]. Qed.

(** [pop_normal] removes the last component. *)
Lemma pop_count p name :
  path_file_name p = Some name ->
  S (List.length (components (pop_normal p))) = List.length (components p).
Proof.
  intros Hp.
  assert (Hlast : last (components p) RootDir = Normal name).
  { unfold path_file_name in Hp. destruct (last (components p) RootDir); try discriminate.
    injection Hp as ->. reflexivity. }
  destruct p as [|c r]; [discriminate|].
  destruct (split_sep_cons (c :: r)) as (q & body & E).
  assert (Hs : Forall noslash (q :: body)).
  { apply Forall_forall. intros x Hx. apply (split_sep_pieces (c :: r)). rewrite E. exact Hx. }
  assert (Hsb : Forall noslash body) by (inversion Hs; assumption).
  assert (Hstrip : forall l, Forall noslash l ->
            Forall noslash (trim_cur_back (removelast (trim_cur_back l)))).
  { intros l Hl. rewrite Forall_forall in Hl |- *. intros x Hx. apply Hl, in_strip, Hx. }
  rewrite (components_unfold _ c r q body eq_refl E) in Hlast |- *.
  unfold pop_normal. rewrite E.
  destruct (Z.eqb_spec c slash) as [->|Hc].
  - rewrite (components_unfold (slash :: join_sep _) slash _ [] _ eq_refl (split_sep_slash _)).
    rewrite Z.eqb_refl, flat_map_split_join by (apply Hstrip, Hsb).
    cbn [List.length]. fold (comp_count (trim_cur_back (removelast (trim_cur_back body)))).
    fold (comp_count body). rewrite comp_count_strip; [reflexivity|].
    apply comp_count_pos. intros Hn. rewrite Hn in Hlast. simpl in Hlast; discriminate.
  - destruct (list_eq_dec Z.eq_dec q [dot]) as [Hq|Hq].
    + assert (Hb : (0 < comp_count body)%nat).
      { apply comp_count_pos. intros Hn. rewrite Hn in Hlast. simpl in Hlast; discriminate. }
      pose proof (comp_count_strip body Hb) as Hcs.
      destruct (trim_cur_back (removelast (trim_cur_back body))) as [|b bs] eqn:Eb.
      * cbn [List.length]. reflexivity || (unfold comp_count in Hcs; simpl in Hcs; rewrite <- Hcs; reflexivity).
      * assert (Es : split_sep (dot :: slash :: join_sep (b :: bs)) = [dot] :: split_sep (join_sep (b :: bs)))
          by reflexivity.
        rewrite (components_unfold _ dot _ [dot] _ eq_refl Es).
        replace (dot =? slash) with false by reflexivity.
        destruct (list_eq_dec Z.eq_dec [dot] [dot]) as [_|]; [|contradiction].
        rewrite flat_map_split_join by (rewrite <- Eb; apply Hstrip, Hsb).
        cbn [List.length]. fold (comp_count (b :: bs)). fold (comp_count body).
        rewrite <- Hcs. reflexivity.
    + assert (Hb : (0 < comp_count (q :: body))%nat).
      { apply comp_count_pos. intros Hn. rewrite Hn in Hlast. simpl in Hlast; discriminate. }
      pose proof (comp_count_strip (q :: body) Hb) as Hcs.
      destruct (strip_prefix_of (q :: body)) as [k Hk].
      destruct (trim_cur_back (removelast (trim_cur_back (q :: body)))) as [|b bs] eqn:Eb.
      * cbn [join_sep components List.length]. fold (comp_count (q :: body)). rewrite <- Hcs. reflexivity.
      * injection Hk as Hbq _. subst b.
        destruct (split_sep_head c r q body Hc E) as [q' ->].
        destruct (join_sep_head (c :: q') bs) as [t Ht].
        assert (Es : split_sep (c :: q' ++ t) = (c :: q') :: bs).
        { change (c :: q' ++ t) with ((c :: q') ++ t). rewrite <- Ht.
          apply split_sep_join; [discriminate|]. pose proof (Hstrip _ Hs) as HH.
          rewrite Eb in HH. exact HH. }
        rewrite Ht. cbn [app].
        rewrite (components_unfold _ c (q' ++ t) (c :: q') bs eq_refl Es).
        replace (c =? slash) with false by (symmetry; apply Z.eqb_neq; exact Hc).
        destruct (list_eq_dec Z.eq_dec (c :: q') [dot]) as [|_]; [contradiction|].
        exact Hcs.
Qed.

Lemma with_file_name_nil_differs p name :
  path_file_name p = Some name -> path_eqb p (with_file_name p []) = false.
Proof.
  intros Hp. unfold with_file_name. rewrite Hp. unfold path_eqb.
  destruct (list_eq_dec component_eq_dec _ _) as [E|]; [|reflexivity].
  exfalso. rewrite components_push_nil in E.
  pose proof (pop_count p name Hp) as H. rewrite E in H. lia.
Qed.

(** [rename_file] *)

Lemma renamed_file_name fs p name :
  path_file_name p = Some name -> sanitize_filename name <> [] ->
  path_file_name (match rename_file fs p with Some np => np | None => p end) =
  Some (if fs.(fs_rename) p (with_file_name p (sanitize_filename name))
        then sanitize_filename name else name).
Proof.
  intros Hp Hne.
  destruct (file_name_normal p name Hp) as [(_ & Hs & _) _].
  assert (Hnew : path_file_name (with_file_name p (sanitize_filename name)) = Some (sanitize_filename name)).
  { unfold with_file_name. rewrite Hp. apply file_name_push, sanitize_normal; assumption. }
  unfold rename_file. rewrite Hp. cbv zeta.
  destruct (path_eqb p (with_file_name p (sanitize_filename name))) eqn:Eq.
  - rewrite Hnew. apply path_eqb_file_name in Eq. rewrite Hp, Hnew in Eq. injection Eq as Eq.
    rewrite <- Eq. destruct (fs_rename fs _ _); reflexivity.
  - destruct (fs_rename fs _ _); [exact Hnew|exact Hp].
Qed.

Lemma renamed_file_refused fs p name :
  (forall x y, fs.(fs_rename) x y = false) ->
  path_file_name p = Some name ->
  path_file_name (match rename_file fs p with Some np => np | None => p end) = Some name.
Proof.
  intros Hfs Hp. unfold rename_file. rewrite Hp. cbv zeta.
  destruct (path_eqb p (with_file_name p (sanitize_filename name))) eqn:Eq.
  - apply path_eqb_file_name in Eq. rewrite <- Eq. exact Hp.
  - rewrite Hfs. exact Hp.
Qed.

(** [str::replace] and the template *)

Lemma strip_prefix_u_some pat s rest : strip_prefix_u pat s = Some rest -> s = pat ++ rest.
Proof.
  revert s; induction pat as [|c pat IH]; intros s H; simpl in H.
  - injection H as ->. reflexivity.
  - destruct s as [|d s]; [discriminate|].
    destruct (Z.eqb_spec c d) as [->|]; [|discriminate].
    rewrite (IH s H). reflexivity.
Qed.

Lemma strip_prefix_u_app pat b : strip_prefix_u pat (pat ++ b) = Some b.
Proof. induction pat as [|c pat IH]; simpl; [reflexivity|]. rewrite Z.eqb_refl. exact IH. Qed.

Lemma replace_skip pat v x b : replace_from pat v (x ++ b) (List.length x) = replace_from pat v b O.
Proof. induction x as [|c x IH]; [reflexivity|]. exact IH. Qed.

Lemma replace_chars pat v s k d : In d (replace_from pat v s k) -> In d s \/ In d v.
Proof.
  revert k; induction s as [|c r IH]; intros k H; simpl in H; [destruct H|].
  destruct k as [|k].
  - destruct (strip_prefix_u pat (c :: r)).
    + apply in_app_or in H as [H|H]; [tauto|]. destruct (IH _ H); simpl; tauto.
    + destruct H as [->|H]; [simpl; tauto|]. destruct (IH _ H); simpl; tauto.
  - destruct (IH _ H); simpl; tauto.
Qed.

Lemma replace_keeps pat v s d :
  pat <> [] -> ~ In d pat -> In d s -> In d (replace pat v s).
Proof.
  intros Hp Hd. unfold replace.
  remember (List.length s) as n eqn:Hn. revert s Hn.
  induction n as [n IH] using lt_wf_ind. intros s Hn Hs.
  destruct s as [|c r]; [destruct Hs|]. simpl.
  destruct (strip_prefix_u pat (c :: r)) as [rest|] eqn:E.
  - apply strip_prefix_u_some in E.
    destruct pat as [|p0 pat']; [contradiction|]. injection E as -> ->.
    cbn [Nat.pred List.length]. rewrite (replace_skip (p0 :: pat') v pat' rest). apply in_or_app. right.
    apply (IH (List.length rest)); [rewrite Hn; simpl; rewrite length_app; lia|reflexivity|].
    change (In d ((p0 :: pat') ++ rest)) in Hs. apply in_app_or in Hs as [Hs|Hs]; [contradiction|exact Hs].
  - destruct Hs as [->|Hs]; [left; reflexivity|right].
    apply (IH (List.length r)); [rewrite Hn; simpl; lia|reflexivity|exact Hs].
Qed.

Lemma replace_inserts pat v s d :
  pat <> [] -> In d v -> (exists a b, s = a ++ pat ++ b) -> In d (replace pat v s).
Proof.
  intros Hp Hd. unfold replace.
  remember (List.length s) as n eqn:Hn. revert s Hn.
  induction n as [n IH] using lt_wf_ind. intros s Hn (a & b & Hs).
  destruct s as [|c r].
  - destruct a; destruct pat; try discriminate; contradiction.
  - simpl. destruct (strip_prefix_u pat (c :: r)) eqn:E.
    + apply in_or_app. left; exact Hd.
    + destruct a as [|c' a].
      * exfalso. simpl in Hs. rewrite Hs, strip_prefix_u_app in E. discriminate.
      * injection Hs as -> Hr. right.
        apply (IH (List.length r)); [rewrite Hn; simpl; lia|reflexivity|].
        exists a, b. exact Hr.
Qed.

Lemma render_no_dot template reps :
  ~ In dot template -> Forall (fun kv => ~ In dot (snd kv)) reps -> ~ In dot (render template reps).
Proof.
  unfold render. revert template; induction reps as [|kv reps IH]; intros t Ht Hr; [exact Ht|].
  inversion Hr as [|? ? Hkv Hrest]; subst. simpl. apply IH; [|exact Hrest].
  intros H. apply replace_chars in H as [H|H]; contradiction.
Qed.

Lemma render_keeps_dot template reps :
  In dot template -> Forall (fun kv => fst kv <> [] /\ ~ In dot (fst kv)) reps ->
  In dot (render template reps).
Proof.
  unfold render. revert template; induction reps as [|kv reps IH]; intros t Ht Hr; [exact Ht|].
  inversion Hr as [|? ? [Hk Hd] Hrest]; subst. simpl. apply IH; [|exact Hrest].
  apply replace_keeps; assumption.
Qed.

Lemma keys_ok stem rotation clock :
  Forall (fun kv => fst kv <> [] /\ ~ In dot (fst kv)) (tl (replacements stem rotation clock)).
Proof.
  cbn [replacements tl].
  repeat (apply Forall_cons;
          [split; [discriminate|vm_compute; intros H; repeat (destruct H as [H|H]; [discriminate|]); exact H]|]).
  apply Forall_nil.
Qed.

Lemma rotation_no_dot rotation :
  In rotation [0; 90; 180; 270] -> ~ In dot (ustr (Runner.Z_to_string rotation)).
Proof.
  intros H. repeat destruct H as [<-|H]; try destruct H;
    vm_compute; intros H; repeat (destruct H as [H|H]; [discriminate|]); exact H.
Qed.

Lemma existsb_dot_false l : ~ In dot l -> existsb (fun c => c =? dot) l = false.
Proof.
  intros H. apply not_true_iff_false. intros E. apply existsb_exists in E as [c [Hc Ec]].
  apply Z.eqb_eq in Ec. subst. contradiction.
Qed.

Lemma existsb_dot_true l : In dot l -> existsb (fun c => c =? dot) l = true.
Proof. intros H. apply existsb_exists. exists dot. split; [exact H|apply Z.eqb_refl]. Qed.

Lemma stem_ext_some name s e :
  stem_ext name = (s, Some e) -> name = s ++ dot :: e /\ s <> [] /\ ~ In dot e.
Proof.
  unfold stem_ext. destruct (list_eq_dec Z.eq_dec name dotdot); [discriminate|].
  destruct (rsplit_once dot name) as [[[|c l] r]|] eqn:E; try discriminate.
  intros H; injection H as <- <-.
  destruct (rsplit_once_some _ _ _ _ E) as [-> Hn]. repeat split; [discriminate|exact Hn].
Qed.

Lemma regex_strip_app a b : regex_strip (a ++ b) = regex_strip a ++ regex_strip b.
Proof. apply filter_app. Qed.

(** X3: when the file system accepts the rename, the input file is renamed
    to its sanitized name; if that name has an extension [e], and neither
    the template nor the clock renderings hold a dot, the output path ends
    in [.e]. *)
Theorem output_path_gets_extension fs clock p output_dir template rotation name s e :
  (forall a b, fs.(fs_rename) a b = true) ->
  path_file_name p = Some name ->
  stem_ext (sanitize_filename name) = (s, Some e) ->
  In rotation [0; 90; 180; 270] ->
  ~ In dot template ->
  ~ In dot clock.(clock_timestamp) -> ~ In dot clock.(clock_date) -> ~ In dot clock.(clock_time) ->
  exists pre,
    generate_output_path fs clock p output_dir template rotation =
    Some (pre ++ dot :: e, with_file_name p (sanitize_filename name)).
Proof.
  intros Hfs Hp Hse Hrot Ht Hc1 Hc2 Hc3.
  destruct (stem_ext_some _ _ _ Hse) as (Hsan & Hs0 & He).
  assert (Hne : sanitize_filename name <> []) by (rewrite Hsan; destruct s; discriminate).
  destruct (sanitize_one_dot name s e Hsan) as [Hsd _].
  assert (Hren : rename_file fs p = Some (with_file_name p (sanitize_filename name))).
  { unfold rename_file. rewrite Hp. cbv zeta. rewrite Hfs. destruct (path_eqb _ _); reflexivity. }
  pose proof (renamed_file_name fs p name Hp Hne) as Hfn. rewrite Hren, Hfs in Hfn.
  set (F := render template (replacements s rotation clock)).
  assert (HF : ~ In dot F).
  { apply render_no_dot; [exact Ht|].
    repeat constructor; simpl; auto using rotation_no_dot. }
  destruct (path_push_suffix output_dir (F ++ dot :: e)) as [pre0 Hpre].
  exists (regex_strip (pre0 ++ F)).
  unfold generate_output_path. rewrite Hren. cbv zeta. rewrite Hfn, Hse.
  fold F. rewrite (existsb_dot_false F HF), Hpre.
  f_equal. f_equal.
  rewrite app_assoc, regex_strip_app. f_equal.
  assert (Hae : Forall (fun c => allowed c = true) (dot :: e)).
  { pose proof (sanitize_allowed name) as A. rewrite Hsan in A.
    apply Forall_app in A as [_ A]. exact A. }
  exact (filter_true _ _ Hae).
Qed.

Lemma output_path_gets_extension_witness :
  exists pre,
    generate_output_path ExtraScenario.fs_ok ExtraScenario.clock0 (ustr "/videos/my clip.v2.mp4"%string)
      (ustr "output"%string) ExtraScenario.default_template 90 =
    Some (pre ++ dot :: ustr "mp4"%string,
          with_file_name (ustr "/videos/my clip.v2.mp4"%string)
            (sanitize_filename (ustr "my clip.v2.mp4"%string))).
Proof.
  apply (output_path_gets_extension _ _ _ _ _ _ _ (ustr "myclipv2"%string)).
  - intros; reflexivity.
  - vm_compute; reflexivity.
  - vm_compute; reflexivity.
  - simpl; tauto.
  - vm_compute; intros H; repeat (destruct H as [H|H]; [discriminate|]); exact H.
  - vm_compute; intros H; repeat (destruct H as [H|H]; [discriminate|]); exact H.
  - vm_compute; intros H; repeat (destruct H as [H|H]; [discriminate|]); exact H.
  - vm_compute; intros H; repeat (destruct H as [H|H]; [discriminate|]); exact H.
Defined.

(** X4: when the rename is refused (a read-only directory), the input path
    is kept; if its file stem holds a dot and the template uses
    [{input_name}], the rendered name holds a dot, so no extension is
    appended: the output path is the rendered template alone. *)
Theorem output_path_drops_extension fs clock p output_dir template rotation name s e :
  (forall a b, fs.(fs_rename) a b = false) ->
  path_file_name p = Some name ->
  stem_ext name = (s, Some e) -> In dot s ->
  (exists a b, template = a ++ key_input_name ++ b) ->
  generate_output_path fs clock p output_dir template rotation =
  Some (regex_strip (path_push output_dir (render template (replacements s rotation clock))), p).
Proof.
  intros Hfs Hp Hse Hs Hkey.
  destruct (stem_ext_some _ _ _ Hse) as (Hname & _ & _).
  assert (Hren : rename_file fs p = None).
  { unfold rename_file. rewrite Hp. cbv zeta. rewrite Hfs.
    destruct (path_eqb p (with_file_name p (sanitize_filename name))) eqn:Eq; [|reflexivity].
    exfalso.
    destruct (list_eq_dec Z.eq_dec (sanitize_filename name) []) as [E0|Hne].
    { rewrite E0, (with_file_name_nil_differs p name Hp) in Eq. discriminate. }
    apply path_eqb_file_name in Eq. rewrite Hp in Eq.
    destruct (file_name_normal p name Hp) as [(_ & Hsl & _) _].
    unfold with_file_name in Eq. rewrite Hp in Eq.
    rewrite file_name_push in Eq by (apply sanitize_normal; assumption).
    injection Eq as Eq.
    apply in_split in Hs as (s1 & s2 & ->).
    rewrite Hname, <- app_assoc in Eq. simpl in Eq.
    destruct (sanitize_one_dot _ s1 (s2 ++ dot :: e) (eq_sym Eq)) as [_ H].
    apply H, in_or_app. right; left; reflexivity. }
  unfold generate_output_path. rewrite Hren. cbv zeta. rewrite Hp, Hse.
  rewrite existsb_dot_true; [reflexivity|].
  unfold render. unfold replacements at 1. cbn [fold_left fst snd].
  apply (render_keeps_dot _ (tl (replacements s rotation clock))); [|apply keys_ok].
  apply replace_inserts; [vm_compute; discriminate|exact Hs|exact Hkey].
Qed.

Lemma output_path_drops_extension_witness :
  generate_output_path ExtraScenario.fs_read_only ExtraScenario.clock0 (ustr "/dvd/a.b.mp4"%string)
    (ustr "output"%string) ExtraScenario.default_template 0 =
  Some (regex_strip (path_push (ustr "output"%string)
          (render ExtraScenario.default_template
             (replacements (ustr "a.b"%string) 0 ExtraScenario.clock0))),
        ustr "/dvd/a.b.mp4"%string) /\
  generate_output_path ExtraScenario.fs_read_only ExtraScenario.clock0 [47; 120; 47; 241; 46; 241; 46; 241]
    (ustr "output"%string) ExtraScenario.default_template 0 =
  Some (regex_strip (path_push (ustr "output"%string)
          (render ExtraScenario.default_template
             (replacements [241; 46; 241] 0 ExtraScenario.clock0))),
        [47; 120; 47; 241; 46; 241; 46; 241]).
Proof.
  split.
  - apply (output_path_drops_extension _ _ _ _ _ _ (ustr "a.b.mp4"%string) _ (ustr "mp4"%string)).
    + intros; reflexivity.
    + vm_compute; reflexivity.
    + vm_compute; reflexivity.
    + vm_compute; tauto.
    + exists [], (ustr "_processed_{rotation}_{timestamp}"%string). vm_compute; reflexivity.
  - apply (output_path_drops_extension _ _ _ _ _ _ [241; 46; 241; 46; 241] _ [241]).
    + intros; reflexivity.
    + vm_compute; reflexivity.
    + vm_compute; reflexivity.
    + vm_compute; tauto.
    + exists [], (ustr "_processed_{rotation}_{timestamp}"%string). vm_compute; reflexivity.
Defined.

(** [prepare_batch_tasks] *)

Lemma generate_output_path_by_name fs clock p q output_dir template rotation :
  path_file_name (match rename_file fs p with Some np => np | None => p end) =
  path_file_name (match rename_file fs q with Some np => np | None => q end) ->
  option_map fst (generate_output_path fs clock p output_dir template rotation) =
  option_map fst (generate_output_path fs clock q output_dir template rotation).
Proof.
  intros H. unfold generate_output_path. cbv zeta. rewrite H. clear H.
  destruct (path_file_name _) as [name|]; [|reflexivity].
  destruct (stem_ext name). reflexivity.
Qed.

Lemma generate_output_path_some fs clock p output_dir template rotation n :
  path_file_name (match rename_file fs p with Some np => np | None => p end) = Some n ->
  exists out inp, generate_output_path fs clock p output_dir template rotation = Some (out, inp).
Proof.
  intros H. unfold generate_output_path. cbv zeta. rewrite H.
  destruct (stem_ext n). eauto.
Qed.

(** X5: two sources with the same file name in different folders, queued
    within one second of [Local::now()], get the same output path, when
    the file system answers both renames alike, except when it accepts
    them and the name sanitizes to the empty string (the renamed input is
    then the folder, whose name takes the file name's place). *)
Theorem same_name_sources_share_output fs clock p1 p2 name output_dir template st et rotation b :
  (forall x y, fs.(fs_rename) x y = b) ->
  (b = false \/ sanitize_filename name <> []) ->
  path_file_name p1 = Some name -> path_file_name p2 = Some name ->
  clock 0%nat = clock 1%nat ->
  exists t1 t2,
    prepare_batch_tasks fs clock [p1; p2] output_dir template st et rotation = Some [t1; t2] /\
    t1.(Runner.output_path) = t2.(Runner.output_path).
Proof.
  intros Hb Hcase H1 H2 Hclock.
  assert (F : forall p, path_file_name p = Some name ->
             path_file_name (match rename_file fs p with Some np => np | None => p end) =
             Some (if b then sanitize_filename name else name)).
  { intros p Hp. destruct Hcase as [->|Hne].
    - apply renamed_file_refused; [intros; apply Hb|exact Hp].
    - rewrite (renamed_file_name fs p name Hp Hne), Hb. reflexivity. }
  pose proof (F p1 H1) as F1. pose proof (F p2 H2) as F2.
  destruct (generate_output_path_some fs (clock 0%nat) p1 output_dir template rotation _ F1)
    as (o1 & i1 & G1).
  destruct (generate_output_path_some fs (clock 1%nat) p2 output_dir template rotation _ F2)
    as (o2 & i2 & G2).
  assert (Eo : o1 = o2).
  { pose proof (generate_output_path_by_name fs (clock 0%nat) p1 p2 output_dir template rotation
                  (eq_trans F1 (eq_sym F2))) as E.
    rewrite G1, Hclock, G2 in E. injection E as E. exact E. }
  unfold prepare_batch_tasks, prepare_from. rewrite G1, G2.
  eexists; eexists. split; [reflexivity|]. simpl. rewrite Eo. reflexivity.
Qed.

(** Two cameras' [VID_0001.mp4] with renames accepted, and two [ñ.ñ] files
    (sanitized to the empty name) in a read-only tree. *)
Lemma same_name_sources_share_output_witness :
  (exists t1 t2,
    prepare_batch_tasks ExtraScenario.fs_ok (fun _ => ExtraScenario.clock0)
      [ustr "/cam1/VID_0001.mp4"%string; ustr "/cam2/VID_0001.mp4"%string]
      (ustr "output"%string) ExtraScenario.default_template "0:00:00"%string "0:00:00"%string 0
    = Some [t1; t2] /\
    t1.(Runner.output_path) = t2.(Runner.output_path)) /\
  (exists t1 t2,
    prepare_batch_tasks ExtraScenario.fs_read_only (fun _ => ExtraScenario.clock0)
      [[47; 97; 47; 241; 46; 241]; [47; 98; 47; 241; 46; 241]]
      (ustr "output"%string) ExtraScenario.default_template "0:00:00"%string "0:00:00"%string 0
    = Some [t1; t2] /\
    t1.(Runner.output_path) = t2.(Runner.output_path)).
Proof.
  split.
  - apply (same_name_sources_share_output _ _ _ _ (ustr "VID_0001.mp4"%string) _ _ _ _ _ true).
    + intros; reflexivity.
    + right. vm_compute; discriminate.
    + vm_compute; reflexivity.
    + vm_compute; reflexivity.
    + reflexivity.
  - apply (same_name_sources_share_output _ _ _ _ [241; 46; 241] _ _ _ _ _ false).
    + intros; reflexivity.
    + left; reflexivity.
    + vm_compute; reflexivity.
    + vm_compute; reflexivity.
    + reflexivity.
Defined.

End OutputPathFacts.

Module PreviewExtraFacts.
Import Preview PreviewFacts.

Lemma generate_preview_keeps env now b v :
  let v' := generate_preview env now b v in
  v'.(source_paths) = v.(source_paths) /\ v'.(rotation) = v.(rotation) /\
  (forall c, target_time c v' = target_time c v) /\
  (forall c, target_texture c v' = target_texture c v) /\
  target_loading (negb b) v' = target_loading (negb b) v.
Proof.
  unfold generate_preview.
  destruct (_ || _ || _); [repeat split; reflexivity|].
  destruct (qlt _ _); [repeat split; reflexivity|].
  match goal with |- context [join_preview_thread ?w] => set (vp1 := w) end.
  destruct (join_keeps_fields vp1) as (Js & Jr & Jt & Jl & Jx & _).
  cbn zeta. split; [exact Js|split; [exact Jr|split; [|split]]].
  - intros c. specialize (Jt c). unfold target_time in *. destruct c; exact Jt.
  - intros c. specialize (Jx c). unfold target_texture in *. destruct c; exact Jx.
  - specialize (Jl (negb b)). unfold target_loading in *. destruct b; exact Jl.
Qed.

End PreviewExtraFacts.

Module FilesFacts.
Import Preview Files.
Local Open Scope string_scope.

Lemma NoDup_snoc {A} (l : list A) x : NoDup l -> ~ In x l -> NoDup (l ++ [x]).
Proof.
  induction l as [|a l IH]; simpl; intros Hd Hn.
  - constructor; [tauto|constructor].
  - inversion Hd as [|? ? Ha Hl]; subst. constructor.
    + rewrite in_app_iff. simpl. intros [H|[H|H]]; [tauto| |tauto]. apply Hn; left; congruence.
    + apply IH; [exact Hl|]. intros H; apply Hn; right; exact H.
Qed.

Lemma existsb_eqb_in p l : existsb (String.eqb p) l = true <-> In p l.
Proof.
  rewrite existsb_exists. split.
  - intros [x [Hx E]]. apply String.eqb_eq in E. subst; exact Hx.
  - intros H. exists p. split; [exact H|apply String.eqb_refl].
Qed.

Lemma drop_one_props info app f :
  NoDup app.(vp).(source_paths) ->
  NoDup (drop_one info app f).(vp).(source_paths) /\
  incl app.(vp).(source_paths) (drop_one info app f).(vp).(source_paths) /\
  (forall p, f = Some p -> In p (drop_one info app f).(vp).(source_paths)).
Proof.
  intros Hd. destruct f as [p|]; simpl.
  - destruct (existsb (String.eqb p) (source_paths (vp app))) eqn:E.
    + split; [exact Hd|split; [apply incl_refl|]].
      intros q Hq; injection Hq as <-. apply existsb_eqb_in; exact E.
    + destruct (info p) as [[d s] fm]. simpl.
      split; [apply NoDup_snoc; [exact Hd|]|split].
      * intros H. apply existsb_eqb_in in H. congruence.
      * intros x Hx. apply in_or_app. left; exact Hx.
      * intros q Hq; injection Hq as <-. apply in_or_app. right; left; reflexivity.
  - split; [exact Hd|split; [apply incl_refl|discriminate]].
Qed.

Lemma handle_file_drop_props info dropped app :
  NoDup app.(vp).(source_paths) ->
  NoDup (handle_file_drop info dropped app).(vp).(source_paths) /\
  (forall p, In p app.(vp).(source_paths) \/ In (Some p) dropped ->
             In p (handle_file_drop info dropped app).(vp).(source_paths)).
Proof.
  unfold handle_file_drop. revert app.
  induction dropped as [|f rest IH]; intros app Hd; simpl.
  - split; [exact Hd|]. intros p [H|[]]; exact H.
  - destruct (drop_one_props info app f Hd) as (D1 & D2 & D3).
    destruct (IH _ D1) as [N M]. split; [exact N|].
    intros p [H|[H|H]].
    + apply M. left. apply D2. exact H.
    + apply M. left. apply D3. congruence.
    + apply M. right. exact H.
Qed.

(** X6: the source list never holds a path twice: a drop appends each
    new path once, keeps every path already listed, and the remove
    buttons' [retain] keeps the list free of duplicates. *)
Theorem file_list_no_duplicates info dropped removed app :
  NoDup app.(vp).(source_paths) ->
  let app' := handle_file_drop info dropped app in
  NoDup app'.(vp).(source_paths) /\
  (forall p, In p app.(vp).(source_paths) \/ In (Some p) dropped -> In p app'.(vp).(source_paths)) /\
  NoDup (remove_paths removed app').(vp).(source_paths) /\
  (forall p, In p removed -> ~ In p (remove_paths removed app').(vp).(source_paths)).
Proof.
  intros Hd. cbv zeta.
  destruct (handle_file_drop_props info dropped app Hd) as [N M].
  split; [exact N|split; [exact M|split]].
  - unfold remove_paths. cbn [with_vp vp set_sources source_paths]. apply NoDup_filter. exact N.
  - intros p Hp Hin. unfold remove_paths in Hin.
    cbn [with_vp vp set_sources source_paths] in Hin.
    apply filter_In in Hin as [_ Hf]. apply negb_true_iff in Hf.
    assert (existsb (String.eqb p) removed = true) by (apply existsb_eqb_in; exact Hp).
    congruence.
Qed.

Lemma file_list_no_duplicates_witness :
  let app' := handle_file_drop ExtraScenario.info0 [Some "a.mp4"; None; Some "movie.mp4"; Some "a.mp4"]
                ExtraScenario.app_previewing in
  app'.(vp).(source_paths) = ["movie.mp4"; "a.mp4"] /\
  (NoDup app'.(vp).(source_paths) /\
   (forall p, In p ExtraScenario.app_previewing.(vp).(source_paths) \/
              In (Some p) [Some "a.mp4"; None; Some "movie.mp4"; Some "a.mp4"] ->
              In p app'.(vp).(source_paths)) /\
   NoDup (remove_paths ["movie.mp4"] app').(vp).(source_paths) /\
   (forall p, In p ["movie.mp4"] -> ~ In p (remove_paths ["movie.mp4"] app').(vp).(source_paths))).
Proof.
  split; [vm_compute; reflexivity|].
  apply file_list_no_duplicates. vm_compute. constructor; [intros []|constructor].
Defined.

(** X7: clearing the list empties it and drops both textures, but a
    preview worker still running stores its frame afterwards, and the next
    drain of [preview_panel] shows it: the emptied list shows a preview
    again. *)
Theorem cleared_list_preview_reappears env app j b img :
  app.(vp).(preview_thread) = Some j -> j.(job_finished) = false ->
  j.(job_result) = Some b -> env.(load_image) b = Some img ->
  let v0 := (clear_list app).(vp) in
  let v1 := preview_drain env (worker_finish v0) in
  v0.(source_paths) = [] /\ target_texture j.(job_is_start) v0 = None /\
  v1.(source_paths) = [] /\ target_texture j.(job_is_start) v1 = Some img /\
  target_loading j.(job_is_start) v1 = false.
Proof.
  intros Ht Hf Hr Hi. cbv zeta.
  destruct j as [is r fin]; cbn [job_finished job_result job_is_start] in *; subst.
  unfold clear_list, worker_finish.
  cbn [with_vp vp clear_previews set_sources preview_thread]. rewrite Ht.
  cbn [job_finished job_result job_is_start].
  destruct is; unfold preview_drain, drain_start, drain_end; simpl; rewrite Hi;
    repeat split.
Qed.

Lemma cleared_list_preview_reappears_witness :
  let v0 := (clear_list ExtraScenario.app_previewing).(vp) in
  let v1 := preview_drain PreviewScenario.short_video_env (worker_finish v0) in
  v0.(source_paths) = [] /\ target_texture true v0 = None /\
  v1.(source_paths) = [] /\ target_texture true v1 = Some [255; 216; 255] /\
  target_loading true v1 = false.
Proof.
  apply (cleared_list_preview_reappears PreviewScenario.short_video_env ExtraScenario.app_previewing
           {| job_is_start := true; job_result := Some [255; 216; 255]; job_finished := false |}
           [255; 216; 255] [255; 216; 255]); vm_compute; reflexivity.
Defined.

(** X8: after the list is cleared and a file is dropped again, a request
    for either target passes the guards of [generate_preview] once 500ms
    have passed (clearing resets [loading]), but [clear_previews] emptied
    the preview times, so the spawned extraction runs at time "". *)
Theorem clear_then_drop_previews_empty_time env info app p now b :
  qlt (now - app.(vp).(last_preview_request_time)) (1 # 2) = false ->
  let v := (handle_file_drop info [Some p] (clear_list app)).(vp) in
  v.(source_paths) = [p] /\ preview_accepts v now b = true /\
  (generate_preview env now b v).(spawned) = (v.(spawned) ++ [(b, "")])%list.
Proof.
  intros Hq. cbv zeta.
  assert (Hv : (handle_file_drop info [Some p] (clear_list app)).(vp) =
               set_sources [p] (clear_previews (set_sources [] app.(vp)))).
  { unfold handle_file_drop, clear_list. simpl. destruct (info p) as [[d s] f]. reflexivity. }
  rewrite Hv.
  assert (Hacc : preview_accepts (set_sources [p] (clear_previews (set_sources [] app.(vp)))) now b = true).
  { unfold preview_accepts.
    cbn [set_sources clear_previews source_paths start_preview_loading end_preview_loading
         last_preview_request_time]. rewrite Hq. destruct b; reflexivity. }
  split; [reflexivity|split; [exact Hacc|]].
  destruct (PreviewFacts.generate_preview_accepted env _ now b Hacc) as (H1 & _).
  rewrite H1. destruct b; reflexivity.
Qed.

Lemma clear_then_drop_previews_empty_time_witness :
  let v := (handle_file_drop ExtraScenario.info0 [Some "b.mp4"] (clear_list ExtraScenario.app_previewing)).(vp) in
  v.(source_paths) = ["b.mp4"] /\ preview_accepts v 2 false = true /\
  (generate_preview PreviewScenario.short_video_env 2 false v).(spawned) = (v.(spawned) ++ [(false, "")])%list.
Proof.
  apply clear_then_drop_previews_empty_time. vm_compute. reflexivity.
Defined.

End FilesFacts.

Module SettingsFacts.
Import Preview Settings PreviewExtraFacts.
Local Open Scope string_scope.

Lemma set_rotation_accepts r v now b : preview_accepts (set_rotation r v) now b = preview_accepts v now b.
Proof. reflexivity. Qed.

Lemma set_preview_time_accepts c t v now b :
  preview_accepts (set_preview_time c t v) now b = preview_accepts v now b.
Proof. reflexivity. Qed.

(** X9: the check that a preview time was "not edited by hand" never
    fails: [settings_panel] takes its snapshot and tests it in the same
    frame, so a change of the start time, or of the rotation, always copies
    the start time into the start preview time, whatever was typed there
    before; the same holds for the end. *)
Theorem settings_sync_overwrites_preview_times env now ed pr v :
  let '(pr', v') := settings_panel env now ed pr v in
  pr'.(start_time) = ed.(ed_start_time) /\ pr'.(end_time) = ed.(ed_end_time) /\
  v'.(rotation) = ed.(ed_rotation) /\
  v'.(start_preview_time) =
    (if String.eqb ed.(ed_start_time) pr.(start_time) && (ed.(ed_rotation) =? v.(rotation))%Z
     then v.(start_preview_time) else ed.(ed_start_time)) /\
  v'.(end_preview_time) =
    (if String.eqb ed.(ed_end_time) pr.(end_time) && (ed.(ed_rotation) =? v.(rotation))%Z
     then v.(end_preview_time) else ed.(ed_end_time)).
Proof.
  unfold settings_panel. cbv zeta.
  cbn [start_time end_time set_rotation rotation start_preview_time end_preview_time].
  rewrite !String.eqb_refl, !andb_true_r.
  set (v1 := set_rotation (ed_rotation ed) v).
  set (cs := negb (ed_start_time ed =? start_time pr) || negb (ed_rotation ed =? rotation v)%Z).
  set (v2 := if cs then generate_preview env now true (set_preview_time true (ed_start_time ed) v1)
             else v1).
  assert (R2 : v2.(rotation) = ed.(ed_rotation) /\
               v2.(start_preview_time) = (if cs then ed.(ed_start_time) else v.(start_preview_time)) /\
               v2.(end_preview_time) = v.(end_preview_time)).
  { subst v2. destruct cs; [|repeat split].
    destruct (generate_preview_keeps env now true (set_preview_time true (ed_start_time ed) v1))
      as (_ & Hr & Ht & _).
    rewrite Hr. split; [reflexivity|].
    split; [exact (Ht true)|exact (Ht false)]. }
  destruct R2 as (R2r & R2s & R2e).
  rewrite R2r, R2e, String.eqb_refl, andb_true_r.
  split; [reflexivity|split; [reflexivity|]].
  destruct (negb (ed_end_time ed =? end_time pr) || negb (ed_rotation ed =? rotation v)%Z) eqn:E3.
  - destruct (generate_preview_keeps env now false (set_preview_time false (ed_end_time ed) v2))
      as (_ & Hr & Ht & _).
    rewrite Hr. cbn [set_preview_time rotation].
    specialize (Ht true) as Hs. specialize (Ht false) as He. cbn in Hs, He.
    rewrite Hs, He, R2s.
    split; [exact R2r|split].
    + subst cs. destruct (String.eqb (ed_start_time ed) (start_time pr)), (Z.eqb (ed_rotation ed) (rotation v)); reflexivity.
    + revert E3. destruct (String.eqb (ed_end_time ed) (end_time pr)), (Z.eqb (ed_rotation ed) (rotation v)); simpl; intros; first [reflexivity|discriminate].
  - rewrite R2s, R2e.
    split; [exact R2r|split].
    + subst cs. destruct (String.eqb (ed_start_time ed) (start_time pr)), (Z.eqb (ed_rotation ed) (rotation v)); reflexivity.
    + revert E3. destruct (String.eqb (ed_end_time ed) (end_time pr)), (Z.eqb (ed_rotation ed) (rotation v)); simpl; intros; first [reflexivity|discriminate].
Qed.

(** X10: a change of rotation requests both previews in one frame, but
    once the start request is accepted the end request falls within the
    shared 500ms debounce: only the start extraction is spawned, and the
    end target keeps its old texture, now shown under the new rotation. *)
Theorem rotation_change_previews_start_only env now ed pr v :
  ed.(ed_rotation) <> v.(rotation) ->
  preview_accepts v now true = true ->
  let v' := snd (settings_panel env now ed pr v) in
  v'.(spawned) = (v.(spawned) ++ [(true, ed.(ed_start_time))])%list /\
  v'.(rotation) = ed.(ed_rotation) /\
  v'.(end_preview_time) = ed.(ed_end_time) /\
  v'.(end_preview_loading) = v.(end_preview_loading) /\
  v'.(end_preview_texture) = v.(end_preview_texture).
Proof.
  intros Hr Hacc. cbv zeta.
  unfold settings_panel. cbv zeta.
  cbn [start_time end_time set_rotation rotation start_preview_time end_preview_time].
  rewrite !String.eqb_refl, !andb_true_r.
  assert (Hne : (ed_rotation ed =? rotation v)%Z = false) by (apply Z.eqb_neq; exact Hr).
  rewrite Hne, !orb_true_r.
  set (w := set_preview_time true (ed_start_time ed) (set_rotation (ed_rotation ed) v)).
  assert (Hw : preview_accepts w now true = true) by exact Hacc.
  destruct (PreviewFacts.generate_preview_accepted env w now true Hw) as (S2 & L2 & _).
  destruct (generate_preview_keeps env now true w) as (_ & R2 & T2 & X2 & E2).
  set (v2 := generate_preview env now true w) in *.
  rewrite R2. cbn [w set_preview_time set_rotation rotation]. rewrite Hne, orb_true_r.
  specialize (T2 false) as T2e. cbn in T2e. rewrite T2e, String.eqb_refl.
  set (u := set_preview_time false (ed_end_time ed) v2).
  assert (Hd : generate_preview env now false u = u).
  { apply PreviewFacts.generate_preview_debounced.
    cbn [u set_preview_time last_preview_request_time]. rewrite L2.
    assert (Hq : (now - now < 1 # 2)%Q)
      by (setoid_replace (now - now)%Q with 0%Q by ring; reflexivity).
    unfold qlt. rewrite (proj1 (Qlt_alt _ _) Hq). reflexivity. }
  rewrite Hd. cbn [snd andb u set_preview_time spawned rotation end_preview_time
                   end_preview_loading end_preview_texture].
  rewrite S2, R2.
  specialize (X2 false) as X2e. cbn in X2e, E2.
  split; [reflexivity|split; [reflexivity|split; [reflexivity|split; [exact E2|exact X2e]]]].
Qed.

Lemma rotation_change_previews_start_only_witness :
  let v' := snd (settings_panel PreviewScenario.short_video_env 1 ExtraScenario.edits_rotate ExtraScenario.params0
                   PreviewScenario.fresh_vp) in
  v'.(spawned) = [(true, "0:00:10")] /\ v'.(rotation) = 90 /\
  v'.(end_preview_time) = "0:00:20" /\
  v'.(end_preview_loading) = false /\ v'.(end_preview_texture) = None.
Proof.
  apply (rotation_change_previews_start_only PreviewScenario.short_video_env 1 ExtraScenario.edits_rotate ExtraScenario.params0
           PreviewScenario.fresh_vp); vm_compute; [discriminate|reflexivity].
Defined.

End SettingsFacts.

Module ControlFacts.
Import Runner Batch Control.

Lemma loop_step_invoked env t rest x :
  (snd (worker_step env (Loop (t :: rest)) x)).(invoked) = x.(invoked) ++ [t].
Proof.
  unfold worker_step. destruct (process_task env t) as [out ws].
  destruct out; reflexivity.
Qed.

Lemma ui_step_step env sys i ph :
  nth_error sys.(workers) i = Some ph ->
  ui_step env sys (Step i) =
  {| shared := snd (worker_step env ph sys.(shared));
     workers := update_nth i (fst (worker_step env ph sys.(shared))) sys.(workers) |}.
Proof. intros H. simpl. rewrite H. destruct (worker_step env ph (shared sys)); reflexivity. Qed.

Lemma update_nth_length {A} i (x : A) l : List.length (update_nth i x l) = List.length l.
Proof.
  revert i; induction l as [|y l IH]; intros [|i]; simpl; try reflexivity. f_equal. apply IH.
Qed.

(** X11: [开始处理] is disabled only while the flag reads [true]; [停止]
    clears the flag but does not end the running worker, so a second click
    starts a second worker over the same queue while the first still runs,
    and the first task is encoded twice.  Without the stop, the second
    click is ignored. *)
Theorem stop_then_start_runs_queue_twice env s t rest :
  s.(processing_flag) = false ->
  let q := t :: rest in
  let sys0 := {| shared := s; workers := [] |} in
  List.length (run_ui env [Click q; Step 0; Click q] sys0).(workers) = 1%nat /\
  let sys := run_ui env [Click q; Step 0; Stop; Click q; Step 1; Step 0; Step 1] sys0 in
  List.length sys.(workers) = 2%nat /\
  sys.(shared).(invoked) = s.(invoked) ++ [t; t].
Proof.
  intros Hf. cbv zeta. unfold run_ui. cbn [fold_left].
  assert (E1 : ui_step env {| shared := s; workers := [] |} (Click (t :: rest)) =
               {| shared := s; workers := [Spawned (t :: rest)] |})
    by (simpl; rewrite Hf; reflexivity).
  rewrite E1.
  assert (E2 : ui_step env {| shared := s; workers := [Spawned (t :: rest)] |} (Step 0) =
               {| shared := set_flag true s; workers := [Loop (t :: rest)] |}) by reflexivity.
  rewrite E2.
  split; [reflexivity|].
  assert (E3 : ui_step env (ui_step env {| shared := set_flag true s; workers := [Loop (t :: rest)] |} Stop)
                 (Click (t :: rest)) =
               {| shared := stop_request (set_flag true s);
                  workers := [Loop (t :: rest); Spawned (t :: rest)] |}) by reflexivity.
  rewrite E3.
  assert (E4 : ui_step env {| shared := stop_request (set_flag true s);
                              workers := [Loop (t :: rest); Spawned (t :: rest)] |} (Step 1) =
               {| shared := set_flag true (stop_request (set_flag true s));
                  workers := [Loop (t :: rest); Loop (t :: rest)] |}) by reflexivity.
  rewrite E4.
  set (s4 := set_flag true (stop_request (set_flag true s))).
  rewrite (ui_step_step env {| shared := s4; workers := [Loop (t :: rest); Loop (t :: rest)] |}
             0 (Loop (t :: rest)) eq_refl).
  cbn [shared workers update_nth].
  set (r1 := worker_step env (Loop (t :: rest)) s4).
  rewrite (ui_step_step env {| shared := snd r1; workers := [fst r1; Loop (t :: rest)] |}
             1 (Loop (t :: rest)) eq_refl).
  cbn [shared workers update_nth].
  split; [reflexivity|].
  rewrite loop_step_invoked. subst r1. rewrite loop_step_invoked.
  subst s4. cbn [invoked set_flag stop_request]. rewrite <- app_assoc. reflexivity.
Qed.

Lemma stop_then_start_runs_queue_twice_witness :
  let q := [Scenario.task_named "a"] in
  let sys0 := {| shared := initial_shared; workers := [] |} in
  List.length (run_ui Scenario.all_ok_env [Click q; Step 0; Click q] sys0).(workers) = 1%nat /\
  let sys := run_ui Scenario.all_ok_env [Click q; Step 0; Stop; Click q; Step 1; Step 0; Step 1] sys0 in
  List.length sys.(workers) = 2%nat /\
  sys.(shared).(invoked) = [Scenario.task_named "a"; Scenario.task_named "a"].
Proof.
  exact (stop_then_start_runs_queue_twice Scenario.all_ok_env initial_shared (Scenario.task_named "a") []
           eq_refl).
Defined.

End ControlFacts.
